(** * Large-trade dashboard: cache, HTTP client, exchange adapter, controller

    A shallow embedding of the JavaScript sources
    [cache.js] (Cache), [api.js] (API), [binance.js] (Binance),
    [ethereum.js], [solana.js] (service facades) and [app.js] (App),
    followed by the properties the specification states about them and by
    further properties of the code.

    Conventions of the embedding.
    - A JavaScript Number is a [number]: NaN, an infinity, or a finite value
      kept as an exact rational.  binary64 rounding is not modelled; the
      adapter only compares numbers and takes the sign of differences, and
      both agree with IEEE 754 on the values a double can hold.  The
      formatters divide: [formatTimeAgo] whole numbers of milliseconds, whose
      floors are exact, and [formatUSD] an amount by a thousand or a million,
      whose quotient is handed to the locale unrounded.  There is no
      negative zero.
    - Values decoded from a response body are [jsval]; values held by the
      cache are [value].
    - Plain objects used as dictionaries ([Cache._storage], [Binance.symbols])
      are finite maps on their own keys.
    - Asynchronous code is run to completion in a monad over a [world] that
      holds the cache, the clock, the network log, the array heap of the
      controller and the page. *)

From Stdlib Require Import ZArith QArith Qabs Qround Ascii String Lia.
From Stdlib Require Import DecimalString.
From stdpp Require Import gmap strings list sorting.
From Equations Require Import Equations.

Local Open Scope string_scope.
Local Open Scope Z_scope.
Set Warnings "-register-all".

(** ** Numbers *)

Inductive number : Type :=
| NaN
| Infinity (negative : bool)
| Fin (q : Q).

Definition Qltb (x y : Q) : bool := (Qnum x * QDen y <? Qnum y * QDen x)%Z.

(** [a < b] *)
Definition number_ltb (a b : number) : bool :=
  match a, b with
  | NaN, _ | _, NaN => false
  | Infinity true, Infinity true => false
  | Infinity true, _ => true
  | Infinity false, _ => false
  | Fin _, Infinity negative => negb negative
  | Fin x, Fin y => Qltb x y
  end.

(** [a <= b] *)
Definition number_leb (a b : number) : bool :=
  match a, b with
  | NaN, _ | _, NaN => false
  | Infinity true, _ => true
  | _, Infinity false => true
  | Infinity false, _ => false
  | Fin _, Infinity true => false
  | Fin x, Fin y => Qle_bool x y
  end.

(** [a > b] and [a >= b] *)
Definition number_gtb (a b : number) : bool := number_ltb b a.
Definition number_geb (a b : number) : bool := number_leb b a.

(** [a === b] on numbers *)
Definition number_eqb (a b : number) : bool :=
  match a, b with
  | Infinity s, Infinity t => Bool.eqb s t
  | Fin x, Fin y => Qeq_bool x y
  | _, _ => false
  end.

(** [a - b] *)
Definition number_sub (a b : number) : number :=
  match a, b with
  | NaN, _ | _, NaN => NaN
  | Infinity s, Infinity t => if Bool.eqb s t then NaN else Infinity s
  | Infinity s, Fin _ => Infinity s
  | Fin _, Infinity t => Infinity (negb t)
  | Fin x, Fin y => Fin (x - y)
  end.

Definition isNaN (a : number) : bool :=
  match a with NaN => true | _ => false end.

Definition number_of_Z (z : Z) : number := Fin (inject_Z z).

(** [a / b] *)
Definition number_div (a b : number) : number :=
  match a, b with
  | NaN, _ | _, NaN => NaN
  | Infinity _, Infinity _ => NaN
  | Infinity s, Fin y => Infinity (xorb s (Qltb y 0))
  | Fin _, Infinity _ => Fin 0
  | Fin x, Fin y =>
      if Qeq_bool y 0 then (if Qeq_bool x 0 then NaN else Infinity (Qltb x 0))
      else Fin (x / y)
  end.

(** [Math.floor(a)] *)
Definition number_floor (a : number) : number :=
  match a with
  | Fin q => Fin (inject_Z (Qfloor q))
  | _ => a
  end.

(** ** Values decoded from JSON, and [undefined] *)

Inductive jsval : Type :=
| JUndefined
| JNull
| JBool (b : bool)
| JNum (n : number)
| JStr (s : string)
| JArr (items : list jsval)
| JObj (props : list (string * jsval)).

(** ** Errors and completions *)

Record error : Type := mkError { name : string; message : string }.

Definition Error (msg : string) : error := mkError "Error" msg.
Definition TypeError (msg : string) : error := mkError "TypeError" msg.

Inductive result (A : Type) : Type :=
| Return (a : A)
| Throw (e : error).
Arguments Return {A} a.
Arguments Throw {A} e.

Definition result_bind {A B} (f : A -> result B) (r : result A) : result B :=
  match r with
  | Return a => f a
  | Throw e => Throw e
  end.

#[export] Instance result_mbind : MBind result := @result_bind.
#[export] Instance result_mret : MRet result := @Return.
#[export] Instance result_fmap : FMap result :=
  fun A B f r => match r with Return a => Return (f a) | Throw e => Throw e end.

(** ** The builtins that are left open

    [Number::toString] and [Date.parse] are engine functions whose full
    definition is outside this development; every definition below is
    parametric in them. *)

Class Builtins : Type := {
  Number_toString : number -> string;
  Date_parse : string -> number
}.

(** ** Reading decimal literals: [parseFloat] *)

Definition is_whitespace (a : ascii) : bool :=
  let n := nat_of_ascii a in
  ((n =? 32) || ((9 <=? n) && (n <=? 13)))%nat.

Fixpoint trim_start (s : string) : string :=
  match s with
  | String a s' => if is_whitespace a then trim_start s' else s
  | EmptyString => s
  end.

Definition digit_of (a : ascii) : option Z :=
  let n := nat_of_ascii a in
  if ((48 <=? n) && (n <=? 57))%nat then Some (Z.of_nat n - 48) else None.

(** Reads the longest run of decimal digits in front of [s]: the value of
    [acc] followed by these digits, how many digits were read, and the
    rest of the string. *)
Fixpoint read_digits (s : string) (acc : Z) (n : nat) : Z * nat * string :=
  match s with
  | String a s' =>
      match digit_of a with
      | Some d => read_digits s' (10 * acc + d) (S n)
      | None => (acc, n, s)
      end
  | EmptyString => (acc, n, s)
  end.

Definition read_sign (s : string) : bool * string :=
  match s with
  | String "-" s' => (true, s')
  | String "+" s' => (false, s')
  | _ => (false, s)
  end.

(** [m * 10^e] *)
Definition scale10 (m e : Z) : Q :=
  if 0 <=? e then inject_Z (m * 10 ^ e) else Qmake m (Z.to_pos (10 ^ (- e))).

Definition read_exponent (s : string) : Z :=
  match s with
  | String c s' =>
      if (Ascii.eqb c "e" || Ascii.eqb c "E")%bool then
        let '(eneg, s'') := read_sign s' in
        let '(ev, ne, _) := read_digits s'' 0 0 in
        if (ne =? 0)%nat then 0 else if eneg then - ev else ev
      else 0
  | EmptyString => 0
  end.

(** The number denoted by the longest prefix of the trimmed input that is a
    StrDecimalLiteral; NaN when there is none. *)
Definition parseFloat_string (input : string) : number :=
  let '(neg, s) := read_sign (trim_start input) in
  if String.prefix "Infinity" s then Infinity neg else
  let '(ip, ni, s) := read_digits s 0 0 in
  let '(m, nf, s) :=
    match s with
    | String "." s' => read_digits s' ip 0
    | _ => (ip, 0%nat, s)
    end in
  if (ni + nf =? 0)%nat then NaN
  else Fin (scale10 (if neg then - m else m) (read_exponent s - Z.of_nat nf)).

Section Language.
Context {B : Builtins}.

(** [String(v)]; an array is joined with commas, [null] and [undefined]
    elements giving the empty string. *)
Fixpoint ToString (v : jsval) : string :=
  match v with
  | JUndefined => "undefined"
  | JNull => "null"
  | JBool true => "true"
  | JBool false => "false"
  | JNum n => Number_toString n
  | JStr s => s
  | JArr items =>
      (fix join (l : list jsval) : string :=
         match l with
         | [] => ""
         | x :: l' =>
             let sx := match x with
                       | JUndefined | JNull => ""
                       | _ => ToString x
                       end in
             match l' with
             | [] => sx
             | _ => sx ++ "," ++ join l'
             end
         end) items
  | JObj _ => "[object Object]"
  end.

(** [parseFloat(v)].  A number is its own value (printing and reading a
    number back gives the same number); anything else is converted to a
    string and read. *)
Definition parseFloat (v : jsval) : number :=
  match v with
  | JNum n => n
  | _ => parseFloat_string (ToString v)
  end.

(** [TimeClip] followed by the truncation to an integral number of
    milliseconds. *)
Definition TimeClip (n : number) : number :=
  match n with
  | Fin q =>
      if Qle_bool (Qabs q) (inject_Z 8640000000000000)
      then Fin (inject_Z (Z.quot (Qnum q) (QDen q))) else NaN
  | _ => NaN
  end.

(** The time value of [new Date(v)]. *)
Definition Date_new (v : jsval) : number :=
  match v with
  | JUndefined => NaN
  | JNull => TimeClip (number_of_Z 0)
  | JBool b => TimeClip (number_of_Z (if b then 1 else 0))
  | JNum n => TimeClip n
  | JStr s => Date_parse s
  | JArr _ | JObj _ => Date_parse (ToString v)
  end.

(** Truthiness, [if (v)]. *)
Definition number_truthy (n : number) : bool :=
  match n with
  | NaN => false
  | Infinity _ => true
  | Fin q => negb (Qeq_bool q 0)
  end.

Definition jsval_truthy (v : jsval) : bool :=
  match v with
  | JUndefined | JNull => false
  | JBool b => b
  | JNum n => number_truthy n
  | JStr s => negb (String.eqb s "")
  | JArr _ | JObj _ => true
  end.

(** [v.p] for a property name [p] that no prototype defines (every name read
    in this program is such a name): the own property of an object,
    [undefined] on other values, a TypeError on [null] and [undefined]. *)
Fixpoint own_property (props : list (string * jsval)) (p : string) : jsval :=
  match props with
  | [] => JUndefined
  | (k, x) :: props' => if String.eqb k p then x else own_property props' p
  end.

Definition get_property (v : jsval) (p : string) : result jsval :=
  match v with
  | JUndefined =>
      Throw (TypeError ("Cannot read properties of undefined (reading '" ++ p ++ "')"))
  | JNull =>
      Throw (TypeError ("Cannot read properties of null (reading '" ++ p ++ "')"))
  | JObj props => Return (own_property props p)
  | _ => Return JUndefined
  end.

(** The elements a [for ... of] loop or a spread visits: those of an array,
    the characters of a string (one per byte here); other values are not
    iterable. *)
Fixpoint characters (s : string) : list jsval :=
  match s with
  | EmptyString => []
  | String a s' => JStr (String a EmptyString) :: characters s'
  end.

Definition iterate (v : jsval) : result (list jsval) :=
  match v with
  | JArr items => Return items
  | JStr s => Return (characters s)
  | _ => Throw (TypeError (ToString v ++ " is not iterable"))
  end.

End Language.

(** ** The canonical transaction record built by the adapter *)

Module Transaction.
Record t : Type := mk {
  id : string;
  hash : string;
  chain : string;
  network : option string;
  amountNative : number;
  amountUsd : number;
  from : string;
  to : string;
  feeNative : number;
  feeUsd : number;
  timestamp : number;
  blockHeight : number;
  blockHash : string;
  confirmations : number;
  explorerUrl : string;
  isExchangeTrade : bool;
  price : number
}.
End Transaction.
Abbreviation Transaction := Transaction.t.

(** ** Values the cache holds and the adapter returns *)

Inductive any : Type :=
| ANull
| AUndefined
| ABool (b : bool)
| ANum (n : number)
| AArr (txs : list Transaction).

Definition truthy (v : any) : bool :=
  match v with
  | ANull | AUndefined => false
  | ABool b => b
  | ANum n => number_truthy n
  | AArr _ => true
  end.

(** ** The world the program runs in *)

Record item : Type := mkItem { value : any; expiry : Z }.

Definition options : Type := list (string * string).

(** What the network answers to one request: either the request is rejected,
    or a response arrives whose body decodes to a value or fails to decode. *)
Inductive outcome : Type :=
| Rejected (e : error)
| Response (ok : bool) (status : Z) (statusText : string) (body : result jsval).

Record reply : Type := mkReply { latency : Z; answer : outcome }.

Inductive event : Type :=
| Request (url : string) (opts : options)
| Sleep (ms : Z).

Definition loc : Type := positive.

(** The visible part of the page: which of the four panels is hidden, the
    error text, the cards shown in the container and the pulse on body. *)
Record page : Type := mkPage {
  transactionsContainer_hidden : bool;
  loadingState_hidden : bool;
  errorState_hidden : bool;
  emptyState_hidden : bool;
  errorMessage : string;
  cards : list Transaction;
  loading_pulse : bool
}.

(** [App.state]; [transactions] is a reference to an array on the heap. *)
Record state : Type := mkState {
  currentChain : string;
  currentSort : string;
  transactions : loc;
  isLoading : bool;
  lastUpdate : option Z;
  expandedTxId : option string
}.

Record world : Type := mkWorld {
  (** [Cache._storage] *)
  storage : gmap string item;
  (** [Date.now()] *)
  now : Z;
  (** The answer to the n-th request of the run, by its url and options. *)
  net : nat -> string -> options -> reply;
  (** Number of requests sent so far, and the log of requests and delays. *)
  sent : nat;
  trace : list event;
  (** The arrays of the controller, [App.state] and the page. *)
  heap : gmap loc (list Transaction);
  controller : state;
  document : page
}.

Definition with_storage (f : gmap string item -> gmap string item) (w : world) : world :=
  mkWorld (f (storage w)) (now w) (net w) (sent w) (trace w) (heap w) (controller w) (document w).
Definition with_heap (f : gmap loc (list Transaction) -> gmap loc (list Transaction))
    (w : world) : world :=
  mkWorld (storage w) (now w) (net w) (sent w) (trace w) (f (heap w)) (controller w) (document w).
Definition with_controller (f : state -> state) (w : world) : world :=
  mkWorld (storage w) (now w) (net w) (sent w) (trace w) (heap w) (f (controller w)) (document w).
Definition with_dom (f : page -> page) (w : world) : world :=
  mkWorld (storage w) (now w) (net w) (sent w) (trace w) (heap w) (controller w) (f (document w)).
(** Time passes by [ms] and [ev] is logged. *)
Definition elapse (ms : Z) (ev : event) (w : world) : world :=
  mkWorld (storage w) (now w + ms) (net w)
    (match ev with Request _ _ => S (sent w) | Sleep _ => sent w end)
    (trace w ++ [ev]) (heap w) (controller w) (document w).

(** ** Computations: state with exceptions *)

Definition M (A : Type) : Type := world -> result A * world.

Definition M_ret {A} (a : A) : M A := fun w => (Return a, w).
Definition M_bind {A B} (f : A -> M B) (m : M A) : M B :=
  fun w => match m w with
           | (Return a, w') => f a w'
           | (Throw e, w') => (Throw e, w')
           end.
#[export] Instance M_mret : MRet M := @M_ret.
#[export] Instance M_mbind : MBind M := @M_bind.

Definition throw {A} (e : error) : M A := fun w => (Throw e, w).
Definition lift {A} (r : result A) : M A := fun w => (r, w).
Definition modify (f : world -> world) : M unit := fun w => (Return tt, f w).
Definition gets {A} (f : world -> A) : M A := fun w => (Return (f w), w).

(** [try { m } catch (e) { h e }] *)
Definition try_catch {A} (m : M A) (h : error -> M A) : M A :=
  fun w => match m w with
           | (Return a, w') => (Return a, w')
           | (Throw e, w') => h e w'
           end.

(** [try { m } finally { f }], for an [f] that completes normally. *)
Definition try_finally {A} (m : M A) (f : world -> world) : M A :=
  fun w => let '(r, w') := m w in (r, f w').

(** ** cache.js *)

Module Cache.

Definition _defaultTTL : Z := 5 * 60 * 1000.

Definition set (key : string) (v : any) (ttl : Z) : M unit :=
  modify (fun w => with_storage (insert key (mkItem v (now w + ttl))) w).

(** [set(key, value)]: the ttl left out is the default one. *)
Definition set_default (key : string) (v : any) : M unit := set key v _defaultTTL.

Definition get (key : string) : M any :=
  fun w =>
    match storage w !! key with
    | None => (Return ANull, w)
    | Some it =>
        if expiry it <? now w
        then (Return ANull, with_storage (delete key) w)
        else (Return (value it), w)
    end.

Definition delete (key : string) : M unit :=
  modify (with_storage (base.delete key)).

Definition clear : M unit :=
  modify (with_storage (fun _ => ∅)).

(** [get(key) !== null] *)
Definition has (key : string) : M bool :=
  v ← get key;
  mret (match v with ANull => false | _ => true end).

Record stats : Type := mkStats { total : nat; valid : nat; expired : nat }.

Definition getStats : M stats :=
  gets (fun w =>
    let entries := map_to_list (storage w) in
    let is_expired (kv : string * item) := expiry (snd kv) <? now w in
    mkStats (length entries)
      (length (List.filter (fun kv => negb (is_expired kv)) entries))
      (length (List.filter is_expired entries))).

End Cache.

(** ** Array.prototype.sort and Array.prototype.slice *)

(** What the sort makes of the comparator's answer: NaN counts as +0. *)
Definition SortCompare {A} (comparefn : A -> A -> number) (x y : A) : number :=
  let v := comparefn x y in
  if isNaN v then number_of_Z 0 else v.

(** [x] is put in front of the first element it does not sort after. *)
Fixpoint sort_insert {A} (comparefn : A -> A -> number) (x : A) (l : list A) : list A :=
  match l with
  | [] => [x]
  | y :: l' =>
      if number_gtb (SortCompare comparefn x y) (number_of_Z 0)
      then y :: sort_insert comparefn x l'
      else x :: l
  end.

(** [l.sort(comparefn)]: the sort is stable, so for a comparator that is a
    consistent ordering its result is determined; it is computed here by
    insertion from the right. *)
Fixpoint Array_sort {A} (comparefn : A -> A -> number) (l : list A) : list A :=
  match l with
  | [] => []
  | x :: l' => sort_insert comparefn x (Array_sort comparefn l')
  end.

(** [l.slice(start, end)] for integral arguments: a negative index counts
    from the end of the array. *)
Definition Array_slice {A} (start end_ : Z) (l : list A) : list A :=
  let len := Z.of_nat (length l) in
  let k := if start <? 0 then Z.max (len + start) 0 else Z.min start len in
  let final := if end_ <? 0 then Z.max (len + end_) 0 else Z.min end_ len in
  take (Z.to_nat (final - k)) (drop (Z.to_nat k) l).

(** [s.slice(start, end)] and [s.slice(start)], on the characters of [s]
    (one per byte). *)
Definition String_slice (start end_ : Z) (s : string) : string :=
  string_of_list_ascii (Array_slice start end_ (list_ascii_of_string s)).

Definition String_slice_from (start : Z) (s : string) : string :=
  String_slice start (Z.of_nat (String.length s)) s.

(** ** api.js *)

Module API.
Section API.
Context {B : Builtins}.

Definition config_timeout : Z := 10000.
Definition config_retryAttempts : Z := 3.
Definition config_retryDelay : Z := 1000.

(** The platform's [fetch(url, {...options, signal})] under the abort timer
    armed by [API.fetch]: when the answer takes longer than the timeout the
    timer fires first and the call is rejected with an AbortError. *)
Definition platform_fetch (url : string) (opts : options)
    : M (bool * Z * string * result jsval) :=
  fun w =>
    let r := net w (sent w) url opts in
    if config_timeout <? latency r then
      (Throw (mkError "AbortError" "The user aborted a request."),
       elapse config_timeout (Request url opts) w)
    else
      (match answer r with
       | Rejected e => Throw e
       | Response ok status statusText body => Return (ok, status, statusText, body)
       end,
       elapse (latency r) (Request url opts) w).

Definition fetch (url : string) (opts : options) : M jsval :=
  try_catch
    ('(ok, status, statusText, body) ← platform_fetch url opts;
     if negb ok then
       throw (Error ("HTTP " ++ Number_toString (number_of_Z status) ++ ": " ++ statusText))
     else
       (* response.json() *)
       lift body)
    (fun error =>
       if String.eqb (name error) "AbortError" then throw (Error "请求超时")
       else throw error).

Definition delay (ms : Z) : M unit := modify (elapse ms (Sleep ms)).

Equations? fetchWithRetry (url : string) (opts : options) (attempts : Z) (w : world)
    : result jsval * world by wf (Z.to_nat attempts) lt :=
  fetchWithRetry url opts attempts w with fetch url opts w := {
    | (Return data, w') => (Return data, w')
    | (Throw error, w') with Z_le_gt_dec attempts 1 := {
        | left _ => (Throw error, w')
        | right _ =>
            fetchWithRetry url opts (attempts - 1) (snd (delay config_retryDelay w')) } }.
Proof. lia. Qed.

(** [shortenAddress(address, startLength, endLength)] on a string; the
    defaults are 6 and 4. *)
Definition shortenAddress (address : string) (startLength endLength : Z) : string :=
  if String.eqb address "" || (Z.of_nat (String.length address) <=? startLength + endLength)
  then address
  else String_slice 0 startLength address ++ "..." ++ String_slice_from (- endLength) address.

Section Formatting.
(** [Date.prototype.toLocaleDateString('zh-CN')] on a time value, and
    [Number.prototype.toLocaleString('en-US', ...)] with its number of
    fraction digits, are left open. *)
Variable Date_toLocaleDateString : number -> string.
Variable Number_toLocaleString : number -> Z -> string.

(** The argument of [formatTimeAgo]: a Date, by its time value, or any other
    value, which is passed to [new Date]. *)
Inductive date_argument : Type :=
| a_Date (time : number)
| not_a_Date (v : jsval).

(** [formatTimeAgo(date)] when [Date.now()] is [now]. *)
Definition formatTimeAgo (now : Z) (date : date_argument) : string :=
  let timestamp := match date with a_Date t => t | not_a_Date v => Date_new v end in
  let diff := number_sub (number_of_Z now) timestamp in
  let seconds := number_floor (number_div diff (number_of_Z 1000)) in
  let minutes := number_floor (number_div seconds (number_of_Z 60)) in
  let hours := number_floor (number_div minutes (number_of_Z 60)) in
  let days := number_floor (number_div hours (number_of_Z 24)) in
  if number_ltb seconds (number_of_Z 60) then "刚刚"
  else if number_ltb minutes (number_of_Z 60) then Number_toString minutes ++ " 分钟前"
  else if number_ltb hours (number_of_Z 24) then Number_toString hours ++ " 小时前"
  else if number_ltb days (number_of_Z 7) then Number_toString days ++ " 天前"
  else Date_toLocaleDateString timestamp.



End Formatting.

End API.
End API.

(** ** binance.js *)

Module Binance.
Section Binance.
Context {B : Builtins}.

Definition baseURL : string := "https://api.binance.com".

Definition symbols : gmap string string :=
  <["btc" := "BTCUSDT"]> (<["eth" := "ETHUSDT"]> (<["sol" := "SOLUSDT"]> ∅)).

Definition chainNames : gmap string string :=
  <["btc" := "Bitcoin"]> (<["eth" := "Ethereum"]> (<["sol" := "Solana"]> ∅)).

Definition minUSD : number := number_of_Z 100000.

(** A lookup spliced into a template string: a missing key reads
    [undefined]. *)
Definition spliced (o : option string) : string := default "undefined" o.

Definition callAPI (endpoint : string) : M jsval :=
  let url := baseURL ++ endpoint in
  try_catch
    (API.fetchWithRetry url [] API.config_retryAttempts)
    (fun error => mret (JArr [])).

(** The body of the loop of [processTrades] for one trade: [None] when the
    trade is skipped by [continue], a completion [Throw] when reading it
    raises. *)
Definition processTrade (chain : string) (trade : jsval) : result (option Transaction) :=
  price ← parseFloat <$> get_property trade "price";
  qty ← parseFloat <$> get_property trade "qty";
  quoteQty ← parseFloat <$> get_property trade "quoteQty";
  time ← get_property trade "time";
  if number_ltb quoteQty minUSD then mret None
  else
    let amountNative := qty in
    trade_id ← get_property trade "id";
    let tradeId := "binance_" ++ chain ++ "_" ++ ToString trade_id in
    isBuyerMaker ← get_property trade "isBuyerMaker";
    let from := if jsval_truthy isBuyerMaker then "Binance Seller" else "Binance Buyer" in
    let to := if jsval_truthy isBuyerMaker then "Binance Buyer" else "Binance Seller" in
    mret (Some {|
      Transaction.id := tradeId;
      Transaction.hash := tradeId;
      Transaction.chain := chain;
      Transaction.network := chainNames !! chain;
      Transaction.amountNative := amountNative;
      Transaction.amountUsd := quoteQty;
      Transaction.from := from;
      Transaction.to := to;
      Transaction.feeNative := number_of_Z 0;
      Transaction.feeUsd := number_of_Z 0;
      Transaction.timestamp := Date_new time;
      Transaction.blockHeight := number_of_Z 0;
      Transaction.blockHash := "";
      Transaction.confirmations := number_of_Z 0;
      Transaction.explorerUrl :=
        "https://www.binance.com/en/trade/" ++ spliced (symbols !! chain);
      Transaction.isExchangeTrade := true;
      Transaction.price := price
    |}).

(** The loop over the trades: a trade whose processing raises is skipped by
    the [catch], a small one by the [continue], the others are pushed in
    order. *)
Fixpoint process_each (chain : string) (items : list jsval) : list Transaction :=
  match items with
  | [] => []
  | trade :: rest =>
      match processTrade chain trade with
      | Return (Some tx) => tx :: process_each chain rest
      | Return None | Throw _ => process_each chain rest
      end
  end.

Definition processTrades (chain : string) (trades : jsval) (currentPrice : number)
    : result (list Transaction) :=
  items ← iterate trades;
  mret (process_each chain items).

(** [(a, b) => b.amountUsd - a.amountUsd] *)
Definition by_amount (a b : Transaction) : number :=
  number_sub (Transaction.amountUsd b) (Transaction.amountUsd a).

(** [processedTxs.sort(...).slice(0, limit)] *)
Definition sortedTxs (processedTxs : list Transaction) (limit : Z) : list Transaction :=
  Array_slice 0 limit (Array_sort by_amount processedTxs).

Definition transactions_key (chain : string) (limit : Z) : string :=
  "binance_" ++ chain ++ "_transactions_" ++ Number_toString (number_of_Z limit).

(** [`/api/v3/trades?symbol=${symbol}&limit=1000`] and
    [`/api/v3/ticker/price?symbol=${symbol}`] *)
Definition trades_endpoint (symbol : string) : string :=
  "/api/v3/trades?symbol=" ++ symbol ++ "&limit=1000".
Definition ticker_endpoint (symbol : string) : string :=
  "/api/v3/ticker/price?symbol=" ++ symbol.

(** The [try] block of [getLargeTransactions]. *)
Definition fetchLargeTransactions (chain : string) (limit : Z) : M any :=
  symbol ← match symbols !! chain with
           | Some symbol => mret symbol
           | None => throw (Error ("不支持的链: " ++ chain))
           end;
  trades ← callAPI (trades_endpoint symbol);
  ticker ← callAPI (ticker_endpoint symbol);
  currentPrice ← lift (parseFloat <$> get_property ticker "price");
  processedTxs ← lift (processTrades chain trades currentPrice);
  let sorted := sortedTxs processedTxs limit in
  Cache.set (transactions_key chain limit) (AArr sorted) (60 * 1000);;
  mret (AArr sorted).

Definition getLargeTransactions (chain : string) (limit : Z) : M any :=
  let cacheKey := transactions_key chain limit in
  cached ← Cache.get cacheKey;
  if truthy cached then mret cached
  else try_catch (fetchLargeTransactions chain limit) (fun error => mret (AArr [])).

Definition price_key (chain : string) : string := "binance_" ++ chain ++ "_price".

Definition defaultPrices : gmap string number :=
  <["btc" := number_of_Z 95000]>
    (<["eth" := number_of_Z 3200]> (<["sol" := number_of_Z 240]> ∅)).

(** The [try] block of [getPrice]. *)
Definition fetchPrice (chain : string) : M any :=
  let symbol := symbols !! chain in
  ticker ← callAPI (ticker_endpoint (spliced symbol));
  price ← lift (parseFloat <$> get_property ticker "price");
  Cache.set (price_key chain) (ANum price) (60 * 1000);;
  mret (ANum price).

(** [defaultPrices[chain] || 0] *)
Definition defaultPrice (chain : string) : number :=
  match defaultPrices !! chain with
  | Some p => if number_truthy p then p else number_of_Z 0
  | None => number_of_Z 0
  end.

Definition getPrice (chain : string) : M any :=
  let cacheKey := price_key chain in
  cached ← Cache.get cacheKey;
  if truthy cached then mret cached
  else try_catch (fetchPrice chain) (fun error => mret (ANum (defaultPrice chain))).


Definition stats_endpoint (symbol : string) : string :=
  "/api/v3/ticker/24hr?symbol=" ++ symbol.


End Binance.
End Binance.

(** ** The service facades (ethereum.js, solana.js, bitcoin.js) *)

Module EthereumService.
Section EthereumService.
Context {B : Builtins}.
Definition getLargeTransactions (limit : Z) : M any := Binance.getLargeTransactions "eth" limit.
Definition getPrice : M any := Binance.getPrice "eth".
End EthereumService.
End EthereumService.

Module SolanaService.
Section SolanaService.
Context {B : Builtins}.
Definition getLargeTransactions (limit : Z) : M any := Binance.getLargeTransactions "sol" limit.
Definition getPrice : M any := Binance.getPrice "sol".
End SolanaService.
End SolanaService.

Module BitcoinService.
Section BitcoinService.
Context {B : Builtins}.
(** Modelled from the spec: bitcoin.js is not among the sources; the
    per-asset service facade is a trivial delegation from an asset
    identifier to the exchange adapter, as the two facades above are. *)
Definition getLargeTransactions (limit : Z) : M any := Binance.getLargeTransactions "btc" limit.
End BitcoinService.
End BitcoinService.

(** ** app.js

    The page is taken to contain every element the controller looks up.
    The HTML of a card is not modelled: the container holds the list of
    transactions it shows, and the text of the last-update label is left
    out of [page]. *)

(** One entry of the result of [Promise.allSettled]. *)
Inductive settled : Type :=
| fulfilled (v : any)
| rejected (reason : error).

Module App.
Section App.
Context {B : Builtins}.

Definition set_currentChain (c : string) (s : state) : state :=
  mkState c (currentSort s) (transactions s) (isLoading s) (lastUpdate s) (expandedTxId s).
Definition set_currentSort (c : string) (s : state) : state :=
  mkState (currentChain s) c (transactions s) (isLoading s) (lastUpdate s) (expandedTxId s).
Definition set_transactions (l : loc) (s : state) : state :=
  mkState (currentChain s) (currentSort s) l (isLoading s) (lastUpdate s) (expandedTxId s).
Definition set_isLoading (b : bool) (s : state) : state :=
  mkState (currentChain s) (currentSort s) (transactions s) b (lastUpdate s) (expandedTxId s).
Definition set_lastUpdate (t : option Z) (s : state) : state :=
  mkState (currentChain s) (currentSort s) (transactions s) (isLoading s) t (expandedTxId s).
Definition set_expandedTxId (i : option string) (s : state) : state :=
  mkState (currentChain s) (currentSort s) (transactions s) (isLoading s) (lastUpdate s) i.

(** *** Arrays on the heap *)

(** A new array holding [xs]. *)
Definition alloc (xs : list Transaction) : M loc :=
  fun w =>
    let l := fresh (dom (heap w)) in
    (Return l, with_heap (insert l xs) w).

Definition read (l : loc) : M (list Transaction) :=
  gets (fun w => default [] (heap w !! l)).

(** [l.push(...xs)] *)
Definition push (l : loc) (xs : list Transaction) : M unit :=
  modify (with_heap (fun h => <[l := (default [] (h !! l) ++ xs)%list]> h)).

(** [l.sort(comparefn)], in place. *)
Definition sort (l : loc) (comparefn : Transaction -> Transaction -> number) : M unit :=
  modify (with_heap (fun h => <[l := Array_sort comparefn (default [] (h !! l))]> h)).

(** The elements of [...v]. *)
Definition spread (v : any) : result (list Transaction) :=
  match v with
  | AArr txs => Return txs
  | _ => Throw (TypeError "Spread syntax requires ...iterable[Symbol.iterator] to be a function")
  end.

(** *** The four panels *)

Definition showLoading : M unit :=
  modify (with_dom (fun d => mkPage true false true true (errorMessage d) (cards d) true)).

Definition showTransactions : M unit :=
  modify (with_dom (fun d => mkPage false true true true (errorMessage d) (cards d) false)).

Definition showError (message : string) : M unit :=
  modify (with_dom (fun d =>
    mkPage true true false true
      (if String.eqb message "" then "无法获取交易数据，请稍后重试" else message)
      (cards d) false)).

Definition showEmpty : M unit :=
  modify (with_dom (fun d => mkPage true true true false (errorMessage d) (cards d) false)).

(** Writes the label only, which [page] does not hold. *)
Definition updateLastUpdateTime : M unit := mret tt.

(** *** Rendering *)

(** [(a, b) => new Date(b.timestamp) - new Date(a.timestamp)] *)
Definition by_time (a b : Transaction) : number :=
  number_sub (Transaction.timestamp b) (Transaction.timestamp a).

Definition renderTransactions : M unit :=
  st ← gets controller;
  stored ← read (transactions st);
  (* let txs = [...this.state.transactions] *)
  txs ← alloc stored;
  txs ← (if negb (String.eqb (currentChain st) "all") then
           copy ← read txs;
           alloc (List.filter (fun tx => String.eqb (Transaction.chain tx) (currentChain st)) copy)
         else mret txs);
  (if String.eqb (currentSort st) "amount"
   then sort txs Binance.by_amount
   else sort txs by_time);;
  view ← read txs;
  if (length view =? 0)%nat then showEmpty
  else
    modify (with_dom (fun d =>
      mkPage (transactionsContainer_hidden d) (loadingState_hidden d) (errorState_hidden d)
        (emptyState_hidden d) (errorMessage d) view (loading_pulse d)));;
    showTransactions.

Definition setChain (chain : string) : M unit :=
  modify (with_controller (set_currentChain chain));;
  renderTransactions.

Definition setSort (sort : string) : M unit :=
  modify (with_controller (set_currentSort sort));;
  renderTransactions.

Definition toggleExpand (txId : string) : M unit :=
  st ← gets controller;
  (if decide (expandedTxId st = Some txId)
   then modify (with_controller (set_expandedTxId None))
   else modify (with_controller (set_expandedTxId (Some txId))));;
  renderTransactions.

(** *** Loading *)

(** A promise awaited under [Promise.allSettled]. *)
Definition settle (m : M any) : M settled :=
  fun w => match m w with
           | (Return v, w') => (Return (fulfilled v), w')
           | (Throw e, w') => (Return (rejected e), w')
           end.

Definition push_fulfilled (r : settled) : M unit :=
  match r with
  | fulfilled v =>
      xs ← lift (spread v);
      st ← gets controller;
      push (transactions st) xs
  | rejected _ => mret tt
  end.

(** The [try] block of [loadData] once the three promises have settled. *)
Definition merge (btcTxs ethTxs solTxs : settled) : M unit :=
  fresh_array ← alloc [];
  modify (with_controller (set_transactions fresh_array));;
  push_fulfilled btcTxs;;
  push_fulfilled ethTxs;;
  push_fulfilled solTxs;;
  t ← gets now;
  modify (with_controller (set_lastUpdate (Some t)));;
  updateLastUpdateTime;;
  renderTransactions.

(** The [catch] block of [loadData]. *)
Definition recover (error : error) : M unit :=
  st ← gets controller;
  stored ← read (transactions st);
  if (length stored =? 0)%nat then showError (message error)
  else showTransactions.

(** The three requests are started together and awaited together; they are
    run here one after the other, in the order they are started.  They
    work on different cache keys and urls. *)
Definition loadData (force : bool) : M unit :=
  st ← gets controller;
  if isLoading st then mret tt
  else
    modify (with_controller (set_isLoading true));;
    showLoading;;
    try_finally
      (try_catch
         ((if force then Cache.clear else mret tt);;
          btcTxs ← settle (BitcoinService.getLargeTransactions 20);
          ethTxs ← settle (EthereumService.getLargeTransactions 20);
          solTxs ← settle (SolanaService.getLargeTransactions 20);
          merge btcTxs ethTxs solTxs)
         recover)
      (with_controller (set_isLoading false)).

End App.
End App.

(** ** An instance of the builtins

    Used where a property is evaluated on a concrete run: integral numbers
    are printed in decimal (other numbers by their integral part), and no
    date string is understood. *)

Definition decimal_of_Z (z : Z) : string := NilZero.string_of_int (Z.to_int z).

Definition reference_builtins : Builtins := {|
  Number_toString n :=
    match n with
    | NaN => "NaN"
    | Infinity true => "-Infinity"
    | Infinity false => "Infinity"
    | Fin q => decimal_of_Z (Z.quot (Qnum q) (QDen q))
    end;
  Date_parse _ := NaN
|}.

(** ** Sample data *)

(** A trade as the exchange lists it; [quoteQty] is left out when [None]. *)
Definition sample_trade (id : Z) (quoteQty : option jsval) : jsval :=
  JObj ([("id", JNum (number_of_Z id));
         ("price", JStr "95000.10");
         ("qty", JStr "2.50000000")] ++
        match quoteQty with Some q => [("quoteQty", q)] | None => [] end ++
        [("time", JNum (number_of_Z 1700000000000));
         ("isBuyerMaker", JBool true);
         ("isBestMatch", JBool true)])%list.

(** Two large trades, of 150000.50 and 237500.25 USDT. *)
Definition sample_survivors : list Transaction :=
  @Binance.process_each reference_builtins "btc"
    [sample_trade 1 (Some (JStr "150000.50000000"));
     sample_trade 2 (Some (JStr "237500.25000000"))].

(** The same two trades, with a trade that lists no [quoteQty] between
    them. *)
Definition sample_processed_with_gap : list Transaction :=
  @Binance.process_each reference_builtins "btc"
    [sample_trade 1 (Some (JStr "150000.50000000"));
     sample_trade 7 None;
     sample_trade 2 (Some (JStr "237500.25000000"))].

(** The page is opened at time [t] on a network [n]: nothing is cached, no
    request was sent, the controller holds an empty array. *)
Definition initial_world (n : nat -> string -> options -> reply) (t : Z) : world :=
  mkWorld ∅ t n 0 [] {[ 1%positive := [] ]}
    (mkState "all" "amount" 1%positive false None None)
    (mkPage true false true true "" [] false).

(** A network on which every request is rejected after 120 ms. *)
Definition offline : nat -> string -> options -> reply :=
  fun _ _ _ => mkReply 120 (Rejected (TypeError "Failed to fetch")).

(** A reply carrying [body] with status 200. *)
Definition ok_reply (body : jsval) : reply :=
  mkReply 80 (Response true 200 "OK" (Return body)).


(** A network on which the requests for recent trades are rejected and the
    price request is answered with the body [null]. *)
Definition null_price : nat -> string -> options -> reply :=
  fun n url opts =>
    if String.eqb url (Binance.baseURL ++ Binance.ticker_endpoint "BTCUSDT")
    then ok_reply JNull
    else offline n url opts.





(** A world in which the controller stores the two sample survivors. *)
Definition loaded_world : world :=
  with_heap (insert 1%positive sample_survivors) (initial_world offline 0).

(** A world, offline, in which a list is cached for each of the three
    assets, to expire at 60000: the two sample survivors for btc, nothing
    for eth and for sol. *)
Definition all_cached : world :=
  with_storage
    (fun c => <["binance_btc_transactions_20" := mkItem (AArr sample_survivors) 60000]>
                (<["binance_eth_transactions_20" := mkItem (AArr []) 60000]>
                   (<["binance_sol_transactions_20" := mkItem (AArr []) 60000]> c)))
    (initial_world offline 0).

(** ** Replies that make a request fail *)

(** The answer comes after the timeout, the request is rejected, the status
    is not a success, or the body does not decode. *)
Definition failing (r : reply) : bool :=
  (API.config_timeout <? latency r) ||
  match answer r with
  | Rejected _ => true
  | Response ok _ _ body =>
      negb ok || match body with Throw _ => true | Return _ => false end
  end.

(** ** The hit test of the adapter *)

(** [if (cached)] on what [Cache.get(key)] returns. *)
Definition cache_hit (key : string) (w : world) : bool :=
  match fst (Cache.get key w) with
  | Return cached => truthy cached
  | Throw _ => false
  end.

(** ** What a settled request contributes *)

(** The transactions of a fulfilled request that returned an array; a
    rejected request contributes none. *)
Definition settled_transactions (r : settled) : list Transaction :=
  match r with
  | fulfilled (AArr txs) => txs
  | _ => []
  end.

(** A rejected request, or a fulfilled one whose value is an array. *)
Definition spreadable (r : settled) : bool :=
  match r with
  | fulfilled (AArr _) | rejected _ => true
  | fulfilled _ => false
  end.

(** A network on which the first request is rejected and the later ones
    are answered with an empty array. *)
Definition flaky : nat -> string -> options -> reply :=
  fun n url opts =>
    match n with
    | O => offline n url opts
    | S _ => ok_reply (JArr [])
    end.

(** A network on which the exchange answers for BTCUSDT: its recent trades
    (a large one, a small one, a larger one), its price and its 24-hour
    statistics; every other request is rejected. *)
Definition exchange_up : nat -> string -> options -> reply :=
  fun n url opts =>
    if String.eqb url (Binance.baseURL ++ Binance.trades_endpoint "BTCUSDT") then
      ok_reply (JArr [sample_trade 1 (Some (JStr "150000.50000000"));
                      sample_trade 5 (Some (JStr "950.00000000"));
                      sample_trade 2 (Some (JStr "237500.25000000"))])
    else if String.eqb url (Binance.baseURL ++ Binance.ticker_endpoint "BTCUSDT") then
      ok_reply (JObj [("symbol", JStr "BTCUSDT"); ("price", JStr "95000.10000000")])
    else if String.eqb url (Binance.baseURL ++ Binance.stats_endpoint "BTCUSDT") then
      ok_reply (JObj [("symbol", JStr "BTCUSDT");
                      ("priceChange", JStr "-94.99999800");
                      ("priceChangePercent", JStr "-95.960");
                      ("highPrice", JStr "96000.00000000");
                      ("lowPrice", JStr "94000.00000000");
                      ("volume", JStr "8913.30000000");
                      ("quoteVolume", JStr "15.30000000")])
    else offline n url opts.

(** ** The log of a call that is retried *)

(** A request, then [retries] times a delay of a second and a request. *)
Fixpoint retry_log (url : string) (opts : options) (retries : nat) : list event :=
  match retries with
  | O => [Request url opts]
  | S r => Request url opts :: Sleep 1000 :: retry_log url opts r
  end.

(** ** A stored value that [has] can see *)

Definition is_null (v : any) : bool :=
  match v with ANull => true | _ => false end.

(** ** The records the adapter builds *)

(** The fields of a Transaction that do not depend on the trade. *)
Definition exchange_fill (chain : string) (tx : Transaction) : Prop :=
  Transaction.chain tx = chain /\
  Transaction.network tx = Binance.chainNames !! chain /\
  Transaction.hash tx = Transaction.id tx /\
  Transaction.feeNative tx = number_of_Z 0 /\
  Transaction.feeUsd tx = number_of_Z 0 /\
  Transaction.blockHeight tx = number_of_Z 0 /\
  Transaction.isExchangeTrade tx = true /\
  Transaction.explorerUrl tx =
    "https://www.binance.com/en/trade/" ++ Binance.spliced (Binance.symbols !! chain) /\
  ((Transaction.from tx = "Binance Seller" /\ Transaction.to tx = "Binance Buyer") \/
   (Transaction.from tx = "Binance Buyer" /\ Transaction.to tx = "Binance Seller")).

(** ** The panels of the page *)

(** How many of the four panels are not hidden. *)
Definition visible_panels (d : page) : nat :=
  length (List.filter negb
            [transactionsContainer_hidden d; loadingState_hidden d;
             errorState_hidden d; emptyState_hidden d]).

(** The transactions [renderTransactions] keeps for the chain selected. *)
Definition selected (currentChain : string) (stored : list Transaction) : list Transaction :=
  if String.eqb currentChain "all" then stored
  else List.filter (fun tx => String.eqb (Transaction.chain tx) currentChain) stored.

(** The comparator it sorts them with. *)
Definition comparator (currentSort : string) : Transaction -> Transaction -> number :=
  if String.eqb currentSort "amount" then Binance.by_amount else App.by_time.

(** ** Steps that send nothing *)

(** The cache, the clock and the request log of [w'] are those of [w]. *)
Definition same_traffic (w w' : world) : Prop :=
  storage w' = storage w /\ now w' = now w /\ sent w' = sent w /\ trace w' = trace w.

(** * Properties *)

(** ** Numbers as an order *)

Lemma Qltb_lt (x y : Q) : Qltb x y = true <-> (x < y)%Q.
Proof. unfold Qltb, Qlt. apply Z.ltb_lt. Qed.

Lemma Qltb_ge (x y : Q) : Qltb x y = false <-> (y <= x)%Q.
Proof.
  unfold Qltb, Qle. rewrite Z.ltb_ge. reflexivity.
Qed.

Lemma number_ltb_leb (a b : number) :
  number_ltb a b = true -> number_leb a b = true.
Proof.
  destruct a as [|[]|x], b as [|[]|y]; simpl; try congruence.
  rewrite Qltb_lt, Qle_bool_iff. apply Qlt_le_weak.
Qed.

Lemma number_ltb_false_leb (a b : number) :
  isNaN a = false -> isNaN b = false ->
  number_ltb a b = false -> number_leb b a = true.
Proof.
  destruct a as [|[]|x], b as [|[]|y]; simpl; try congruence.
  rewrite Qltb_ge, Qle_bool_iff. trivial.
Qed.

Lemma number_leb_trans (a b c : number) :
  number_leb a b = true -> number_leb b c = true -> number_leb a c = true.
Proof.
  destruct a as [|[]|x], b as [|[]|y], c as [|[]|z]; simpl; try congruence.
  rewrite !Qle_bool_iff. apply Qle_trans.
Qed.

Lemma number_leb_not_NaN (a b : number) :
  number_leb a b = true -> isNaN a = false /\ isNaN b = false.
Proof. destruct a as [|[]|x], b as [|[]|y]; simpl; auto; congruence. Qed.

Lemma number_eqb_ltb_apart (a b v : number) :
  number_eqb a v = true -> number_ltb a b = true -> number_eqb b v = false.
Proof.
  destruct a as [|[]|x], b as [|[]|y], v as [|[]|z]; simpl; try congruence.
  rewrite Qltb_lt. intros Hxz Hxy.
  apply Qeq_bool_iff in Hxz.
  destruct (Qeq_bool y z) eqn:Hyz; [|reflexivity].
  apply Qeq_bool_iff in Hyz. rewrite Hxz, Hyz in Hxy.
  exfalso. exact (Qlt_irrefl _ Hxy).
Qed.

(** The sign the sort sees in a difference of keys: [x] sorts after [y]
    exactly when its key is the smaller one. *)
Lemma difference_positive (a b : number) :
  number_gtb (if isNaN (number_sub b a) then number_of_Z 0 else number_sub b a)
    (number_of_Z 0) = number_ltb a b.
Proof.
  unfold number_gtb.
  destruct a as [|[]|x], b as [|[]|y]; simpl; try reflexivity.
  apply eq_true_iff_eq. rewrite !Qltb_lt.
  rewrite (Qlt_minus_iff x y). reflexivity.
Qed.

(** ** Sorting by a numeric key, largest first *)

Section SortByKey.
Context {A : Type} (key : A -> number) (comparefn : A -> A -> number).
Hypothesis comparefn_key : forall x y, comparefn x y = number_sub (key y) (key x).

Definition descending (x y : A) : Prop := number_geb (key x) (key y) = true.

Lemma sort_insert_key (x y : A) (l : list A) :
  sort_insert comparefn x (y :: l) =
  if number_ltb (key x) (key y) then y :: sort_insert comparefn x l else x :: y :: l.
Proof.
  cbn [sort_insert]. unfold SortCompare. cbv zeta.
  rewrite comparefn_key, difference_positive. reflexivity.
Qed.

Lemma sort_insert_perm (x : A) (l : list A) : sort_insert comparefn x l ≡ₚ x :: l.
Proof.
  induction l as [|y l IH]; [reflexivity|].
  rewrite sort_insert_key. destruct (number_ltb (key x) (key y)); [|reflexivity].
  rewrite IH. apply Permutation_swap.
Qed.

Lemma Array_sort_perm (l : list A) : Array_sort comparefn l ≡ₚ l.
Proof.
  induction l as [|x l IH]; [reflexivity|].
  simpl. rewrite sort_insert_perm, IH. reflexivity.
Qed.

Lemma sort_insert_sorted (x : A) (l : list A) :
  isNaN (key x) = false -> Forall (fun y => isNaN (key y) = false) l ->
  StronglySorted descending l -> StronglySorted descending (sort_insert comparefn x l).
Proof.
  intros Hx Hl Hs. induction l as [|y l IH]; [repeat constructor|].
  rewrite sort_insert_key.
  apply Forall_cons in Hl as [Hy Hl]. apply StronglySorted_inv in Hs as [Hs Hyl].
  destruct (number_ltb (key x) (key y)) eqn:Hlt.
  - constructor; [auto|].
    rewrite sort_insert_perm. constructor; [|exact Hyl].
    apply number_ltb_leb, Hlt.
  - assert (Hxy : descending x y) by (apply number_ltb_false_leb; assumption).
    constructor; [constructor; assumption|].
    constructor; [exact Hxy|].
    eapply Forall_impl; [exact Hyl|].
    intros z Hyz. unfold descending, number_geb in *.
    eapply number_leb_trans; eassumption.
Qed.

Lemma Array_sort_sorted (l : list A) :
  Forall (fun y => isNaN (key y) = false) l ->
  StronglySorted descending (Array_sort comparefn l).
Proof.
  induction l as [|x l IH]; intros Hl; [constructor|].
  apply Forall_cons in Hl as [Hx Hl]. simpl.
  apply sort_insert_sorted; auto.
  rewrite Array_sort_perm. exact Hl.
Qed.

(** Stability: the elements of any one key value come out in the order they
    went in. *)
Lemma sort_insert_stable (v : number) (x : A) (l : list A) :
  List.filter (fun y => number_eqb (key y) v) (sort_insert comparefn x l) =
  List.filter (fun y => number_eqb (key y) v) (x :: l).
Proof.
  induction l as [|y l IH]; [reflexivity|].
  rewrite sort_insert_key. destruct (number_ltb (key x) (key y)) eqn:Hlt; [|reflexivity].
  simpl in *. rewrite IH.
  destruct (number_eqb (key x) v) eqn:Hx; [|reflexivity].
  rewrite (number_eqb_ltb_apart _ _ _ Hx Hlt). reflexivity.
Qed.

Lemma Array_sort_stable (v : number) (l : list A) :
  List.filter (fun y => number_eqb (key y) v) (Array_sort comparefn l) =
  List.filter (fun y => number_eqb (key y) v) l.
Proof.
  induction l as [|x l IH]; [reflexivity|].
  simpl Array_sort. rewrite sort_insert_stable. simpl. rewrite IH. reflexivity.
Qed.

End SortByKey.

Lemma Array_slice_prefix {A} (limit : Z) (l : list A) :
  0 <= limit -> Array_slice 0 limit l = take (Z.to_nat limit) l.
Proof.
  intros Hlimit. unfold Array_slice.
  replace (0 <? 0) with false by reflexivity.
  replace (limit <? 0) with false by (symmetry; apply Z.ltb_ge; exact Hlimit).
  rewrite (Z.min_l 0) by lia. rewrite Z.sub_0_r.
  change (drop (Z.to_nat 0) l) with l.
  destruct (Z.le_gt_cases limit (Z.of_nat (length l))) as [Hle|Hgt].
  - rewrite Z.min_l by lia. reflexivity.
  - rewrite Z.min_r by lia. rewrite Nat2Z.id.
    rewrite !take_ge by lia. reflexivity.
Qed.

(** ** The threshold filter of the adapter *)

Section Threshold.
Context {B : Builtins}.

Lemma processTrade_amount (chain : string) (trade : jsval) (tx : Transaction) :
  Binance.processTrade chain trade = Return (Some tx) ->
  exists q, get_property trade "quoteQty" = Return q /\
            Transaction.amountUsd tx = parseFloat q /\
            number_ltb (parseFloat q) Binance.minUSD = false.
Proof.
  unfold Binance.processTrade.
  destruct trade; cbn -[parseFloat number_ltb]; try discriminate;
    match goal with
    | |- context [number_ltb ?a Binance.minUSD] =>
        destruct (number_ltb a Binance.minUSD) eqn:Hlt; simpl; try discriminate;
        intros [= <-]; eexists; split; [reflexivity|split; [reflexivity|exact Hlt]]
    end.
Qed.

(** What the filter does establish: no emitted amount compares below the
    threshold. *)
Lemma process_each_not_below (chain : string) (items : list jsval) :
  Forall (fun tx => number_ltb (Transaction.amountUsd tx) Binance.minUSD = false)
    (Binance.process_each chain items).
Proof.
  induction items as [|trade rest IH]; simpl; [constructor|].
  destruct (Binance.processTrade chain trade) as [[tx|]|e] eqn:Htrade; auto.
  constructor; [|exact IH].
  apply processTrade_amount in Htrade as (q & _ & -> & Hlt). exact Hlt.
Qed.

(** A trade whose quote value is below the threshold gives no transaction. *)
Lemma processTrade_small (chain : string) (trade q : jsval) :
  get_property trade "quoteQty" = Return q ->
  number_ltb (parseFloat q) Binance.minUSD = true ->
  Binance.processTrade chain trade = Return None.
Proof.
  unfold Binance.processTrade.
  destruct trade; cbn -[parseFloat number_ltb]; try discriminate; intros [= <-] Hlt;
    rewrite Hlt; reflexivity.
Qed.

(** C1, at a failing input.  A trade that lists no [quoteQty] passes the
    threshold test, since NaN compares below nothing: [processTrades] emits
    a Transaction for it whose [amountUsd] is NaN, which is not
    [>= 100000]. *)
Theorem processTrades_emits_NaN_amount (currentPrice : number) :
  exists tx,
    Binance.processTrades "btc" (JArr [sample_trade 7 None]) currentPrice = Return [tx] /\
    Transaction.amountUsd tx = NaN /\
    number_geb (Transaction.amountUsd tx) Binance.minUSD = false.
Proof. eexists. split; [reflexivity|]. split; reflexivity. Qed.

End Threshold.

(** ** Sorting and truncating the survivors *)

(** C3, as amended.  For transactions that meet the threshold and a limit
    that is not negative, [sortedTxs] is the first [limit] elements of a
    rearrangement of the survivors that is in descending order of
    [amountUsd] and keeps survivors of equal [amountUsd] in their original
    order; its length does not exceed [limit]. *)
Theorem sortedTxs_sorted_stable_truncated (processedTxs : list Transaction) (limit : Z) :
  Forall (fun tx => number_geb (Transaction.amountUsd tx) Binance.minUSD = true)
    processedTxs ->
  0 <= limit ->
  let sorted := Array_sort Binance.by_amount processedTxs in
  sorted ≡ₚ processedTxs /\
  StronglySorted
    (fun a b => number_geb (Transaction.amountUsd a) (Transaction.amountUsd b) = true)
    sorted /\
  (forall v : number,
     List.filter (fun tx => number_eqb (Transaction.amountUsd tx) v) sorted =
     List.filter (fun tx => number_eqb (Transaction.amountUsd tx) v) processedTxs) /\
  Binance.sortedTxs processedTxs limit = take (Z.to_nat limit) sorted /\
  Z.of_nat (length (Binance.sortedTxs processedTxs limit)) <= limit.
Proof.
  intros Hsurvive Hlimit sorted.
  assert (Hkey : forall x y, Binance.by_amount x y =
            number_sub (Transaction.amountUsd y) (Transaction.amountUsd x))
    by reflexivity.
  assert (Hslice : Binance.sortedTxs processedTxs limit = take (Z.to_nat limit) sorted)
    by (apply Array_slice_prefix, Hlimit).
  split; [apply (Array_sort_perm _ _ Hkey)|].
  split.
  { apply (Array_sort_sorted _ _ Hkey).
    eapply Forall_impl; [exact Hsurvive|].
    intros tx Htx. apply number_leb_not_NaN in Htx. tauto. }
  split; [intros v; apply (Array_sort_stable _ _ Hkey)|].
  split; [exact Hslice|].
  rewrite Hslice, length_take. lia.
Qed.

Lemma sortedTxs_sorted_stable_truncated_witness :
  let sorted := Array_sort Binance.by_amount sample_survivors in
  sorted ≡ₚ sample_survivors /\
  StronglySorted
    (fun a b => number_geb (Transaction.amountUsd a) (Transaction.amountUsd b) = true)
    sorted /\
  (forall v : number,
     List.filter (fun tx => number_eqb (Transaction.amountUsd tx) v) sorted =
     List.filter (fun tx => number_eqb (Transaction.amountUsd tx) v) sample_survivors) /\
  Binance.sortedTxs sample_survivors 1 = take (Z.to_nat 1) sorted /\
  Z.of_nat (length (Binance.sortedTxs sample_survivors 1)) <= 1.
Proof.
  apply (sortedTxs_sorted_stable_truncated sample_survivors 1).
  - repeat constructor.
  - lia.
Defined.

(** C3 as stated fails for a negative limit: [slice(0, -1)] drops the last
    element only, so two survivors and the limit -1 give one transaction. *)
Lemma sortedTxs_negative_limit :
  Forall (fun tx => number_geb (Transaction.amountUsd tx) Binance.minUSD = true)
    sample_survivors /\
  length (Binance.sortedTxs sample_survivors (-1)) = 1%nat /\
  -1 < Z.of_nat (length (Binance.sortedTxs sample_survivors (-1))).
Proof. split; [repeat constructor|]. split; [reflexivity|]. vm_compute. reflexivity. Qed.

(** A Transaction whose [amountUsd] is NaN compares equal to every other
    one, and the larger amount can stay behind the smaller. *)
Lemma sortedTxs_with_NaN_amount :
  List.map Transaction.amountUsd (Binance.sortedTxs sample_processed_with_gap 20) =
  [parseFloat_string "150000.50000000"; NaN; parseFloat_string "237500.25000000"].
Proof. reflexivity. Qed.

(** ** The cache *)


(** [Cache.set] followed by [Cache.get]: the value is returned as long as
    the clock has not passed [now + ttl]. *)
Lemma Cache_set_get (key : string) (v : any) (ttl : Z) (w : world) :
  let w' := snd (Cache.set key v ttl w) in
  storage w' !! key = Some (mkItem v (now w + ttl)) /\
  now w' = now w.
Proof. simpl. split; [apply lookup_insert_eq|reflexivity]. Qed.


(** ** The HTTP client *)

Section Retry.
Context {B : Builtins}.

Lemma sent_elapse_request (ms : Z) (url : string) (opts : options) (w : world) :
  sent (elapse ms (Request url opts) w) = S (sent w).
Proof. reflexivity. Qed.

(** One call of [API.fetch] sends one request, and throws exactly on a
    failing reply. *)
Lemma fetch_once (url : string) (opts : options) (w : world) :
  exists r ms,
    API.fetch url opts w = (r, elapse ms (Request url opts) w) /\
    (failing (net w (sent w) url opts) = true -> exists e, r = Throw e) /\
    (failing (net w (sent w) url opts) = false -> exists data, r = Return data).
Proof.
  unfold API.fetch, try_catch, API.platform_fetch, failing.
  unfold mbind, M_mbind, M_bind, throw, lift.
  destruct (API.config_timeout <? latency (net w (sent w) url opts)); simpl.
  { eexists _, _. split; [reflexivity|]. split; [eauto|discriminate]. }
  destruct (answer (net w (sent w) url opts)) as [e|ok status text body]; simpl.
  { destruct (String.eqb (name e) "AbortError");
      (eexists _, _; split; [reflexivity|]; split; [eauto|discriminate]). }
  destruct ok; simpl.
  - destruct body as [data|e]; simpl.
    + eexists _, _. split; [reflexivity|]. split; [discriminate|eauto].
    + destruct (String.eqb (name e) "AbortError");
        (eexists _, _; split; [reflexivity|]; split; [eauto|discriminate]).
  - eexists _, _. split; [reflexivity|]. split; [eauto|discriminate].
Qed.

Lemma fetchWithRetry_step (url : string) (opts : options) (attempts : Z) (w : world) :
  API.fetchWithRetry url opts attempts w =
  match API.fetch url opts w with
  | (Return data, w') => (Return data, w')
  | (Throw error, w') =>
      if attempts <=? 1 then (Throw error, w')
      else API.fetchWithRetry url opts (attempts - 1) (snd (API.delay API.config_retryDelay w'))
  end.
Proof.
  simp fetchWithRetry.
  destruct (API.fetch url opts w) as [[data|error] w']; simpl; [reflexivity|].
  destruct (Z_le_gt_dec attempts 1) as [Hle|Hgt]; simpl.
  - apply Z.leb_le in Hle. rewrite Hle. reflexivity.
  - assert (Hgt' : (attempts <=? 1) = false) by (apply Z.leb_gt; lia).
    rewrite Hgt'. reflexivity.
Qed.

Lemma fetchWithRetry_retry (url : string) (opts : options) (attempts : Z)
    (w w1 : world) (e : error) :
  API.fetch url opts w = (Throw e, w1) -> 1 < attempts ->
  API.fetchWithRetry url opts attempts w =
  API.fetchWithRetry url opts (attempts - 1) (snd (API.delay 1000 w1)).
Proof.
  intros Hfetch Hmore. rewrite fetchWithRetry_step, Hfetch.
  replace (attempts <=? 1) with false by (symmetry; apply Z.leb_gt; exact Hmore).
  reflexivity.
Qed.

Lemma fetchWithRetry_last (url : string) (opts : options) (attempts : Z)
    (w w1 : world) (e : error) :
  API.fetch url opts w = (Throw e, w1) -> attempts <= 1 ->
  API.fetchWithRetry url opts attempts w = (Throw e, w1).
Proof.
  intros Hfetch Hlast. rewrite fetchWithRetry_step, Hfetch.
  replace (attempts <=? 1) with true by (symmetry; apply Z.leb_le; exact Hlast).
  reflexivity.
Qed.

(** What a retried request leaves behind: the cache, the network, the heap,
    the controller and the page are as before; the log has grown, by the
    request first; at least one request and at most [max 1 attempts] were
    sent. *)
Lemma fetchWithRetry_effect (url : string) (opts : options) (attempts : Z) (w : world) :
  let w' := snd (API.fetchWithRetry url opts attempts w) in
  storage w' = storage w /\ net w' = net w /\ heap w' = heap w /\
  controller w' = controller w /\ document w' = document w /\
  (exists rest, trace w' = (trace w ++ Request url opts :: rest)%list) /\
  (sent w < sent w' <= sent w + Z.to_nat (Z.max 1 attempts))%nat.
Proof.
  remember (Z.to_nat attempts) as n eqn:Hn.
  revert attempts w Hn. induction n as [|n IH]; intros attempts w Hn;
    rewrite fetchWithRetry_step;
    destruct (fetch_once url opts w) as (r & ms & -> & _ & _);
    destruct r as [data|error]; simpl;
    try (repeat split; try reflexivity; [eexists; reflexivity|lia..]).
  - replace (attempts <=? 1) with true by (symmetry; apply Z.leb_le; lia).
    simpl. repeat split; try reflexivity; [eexists; reflexivity|lia..].
  - destruct (attempts <=? 1) eqn:Hlast.
    + simpl. repeat split; try reflexivity; [eexists; reflexivity|lia..].
    + apply Z.leb_gt in Hlast.
      specialize (IH (attempts - 1)
        (snd (API.delay API.config_retryDelay (elapse ms (Request url opts) w)))).
      destruct IH as (Hs & Hnet & Hh & Ha & Hd & (rest & Ht) & Hsent); [lia|].
      simpl in *.
      repeat split; try assumption.
      * eexists. rewrite Ht, <- !app_assoc. reflexivity.
      * lia.
      * lia.
Qed.

(** C4.  With [attempts = 3] no more than three requests are sent.  When
    every request fails, exactly three are sent, with a delay of 1000 ms
    after the first and after the second, and the error thrown is the one
    the third [fetch] threw. *)
Theorem fetchWithRetry_three_attempts (url : string) (opts : options) (w : world) :
  (sent (snd (API.fetchWithRetry url opts 3 w)) <= sent w + 3)%nat /\
  ((forall n, failing (net w n url opts) = true) ->
   exists e1 w1 e2 w2 e3 w3,
     API.fetch url opts w = (Throw e1, w1) /\
     API.fetch url opts (snd (API.delay 1000 w1)) = (Throw e2, w2) /\
     API.fetch url opts (snd (API.delay 1000 w2)) = (Throw e3, w3) /\
     API.fetchWithRetry url opts 3 w = (Throw e3, w3) /\
     sent w3 = (sent w + 3)%nat /\
     trace w3 =
       (trace w ++ [Request url opts; Sleep 1000;
                    Request url opts; Sleep 1000;
                    Request url opts])%list).
Proof.
  split.
  { pose proof (fetchWithRetry_effect url opts 3 w) as Heffect.
    simpl in Heffect. change (Z.to_nat (Z.max 1 3)) with 3%nat in Heffect. lia. }
  intros Hfail.
  destruct (fetch_once url opts w) as (r1 & ms1 & Hf1 & Ht1 & _).
  destruct (Ht1 (Hfail _)) as [e1 ->].
  set (w1 := elapse ms1 (Request url opts) w) in *.
  destruct (fetch_once url opts (snd (API.delay 1000 w1))) as (r2 & ms2 & Hf2 & Ht2 & _).
  destruct (Ht2 (Hfail _)) as [e2 ->].
  set (w2 := elapse ms2 (Request url opts) (snd (API.delay 1000 w1))) in *.
  destruct (fetch_once url opts (snd (API.delay 1000 w2))) as (r3 & ms3 & Hf3 & Ht3 & _).
  destruct (Ht3 (Hfail _)) as [e3 ->].
  set (w3 := elapse ms3 (Request url opts) (snd (API.delay 1000 w2))) in *.
  exists e1, w1, e2, w2, e3, w3.
  repeat (split; [assumption|]).
  split.
  { rewrite (fetchWithRetry_retry _ _ _ _ _ _ Hf1) by lia.
    rewrite (fetchWithRetry_retry _ _ _ _ _ _ Hf2) by lia.
    apply (fetchWithRetry_last _ _ _ _ _ _ Hf3). lia. }
  split.
  { simpl. lia. }
  simpl. rewrite <- !app_assoc. reflexivity.
Qed.

End Retry.

(** ** The exchange adapter *)

Section Adapter.
Context {B : Builtins}.

Lemma Cache_get_returns (key : string) (w : world) :
  exists cached, Cache.get key w = (Return cached, snd (Cache.get key w)).
Proof.
  unfold Cache.get. destruct (storage w !! key) as [it|]; [|eauto].
  destruct (expiry it <? now w); eauto.
Qed.

(** Reading the cache changes nothing but the store. *)
Lemma Cache_get_frame (key : string) (w : world) :
  let w' := snd (Cache.get key w) in
  now w' = now w /\ net w' = net w /\ sent w' = sent w /\ trace w' = trace w /\
  heap w' = heap w /\ controller w' = controller w /\ document w' = document w.
Proof.
  unfold Cache.get. destruct (storage w !! key) as [it|]; [|simpl; tauto].
  destruct (expiry it <? now w); simpl; tauto.
Qed.

Lemma Cache_get_fresh (key : string) (w : world) (it : item) :
  storage w !! key = Some it -> now w <= expiry it ->
  Cache.get key w = (Return (value it), w).
Proof.
  intros Hit Hfresh. unfold Cache.get. rewrite Hit.
  apply Z.ltb_ge in Hfresh. rewrite Hfresh. reflexivity.
Qed.

(** [callAPI] never throws: a failed request is turned into an empty
    array. *)
Lemma callAPI_returns (endpoint : string) (w : world) :
  let run := API.fetchWithRetry (Binance.baseURL ++ endpoint) [] 3 w in
  Binance.callAPI endpoint w =
  (Return (match fst run with Return data => data | Throw _ => JArr [] end), snd run).
Proof.
  unfold Binance.callAPI, try_catch, API.config_retryAttempts.
  destruct (API.fetchWithRetry _ _ _ w) as [[data|e] w1]; reflexivity.
Qed.

Lemma sortedTxs_nil (limit : Z) : Binance.sortedTxs [] limit = [].
Proof.
  unfold Binance.sortedTxs, Array_slice. simpl Array_sort.
  rewrite drop_nil, take_nil. reflexivity.
Qed.

(** The [try] block on a supported asset, step by step. *)
Lemma fetchLargeTransactions_run (chain : string) (limit : Z) (symbol : string) (w : world) :
  Binance.symbols !! chain = Some symbol ->
  exists trades ticker w1 w2,
    Binance.callAPI (Binance.trades_endpoint symbol) w = (Return trades, w1) /\
    Binance.callAPI (Binance.ticker_endpoint symbol) w1 = (Return ticker, w2) /\
    Binance.fetchLargeTransactions chain limit w =
    match get_property ticker "price" with
    | Throw e => (Throw e, w2)
    | Return p =>
        match Binance.processTrades chain trades (parseFloat p) with
        | Throw e => (Throw e, w2)
        | Return processedTxs =>
            (Return (AArr (Binance.sortedTxs processedTxs limit)),
             snd (Cache.set (Binance.transactions_key chain limit)
                    (AArr (Binance.sortedTxs processedTxs limit)) (60 * 1000) w2))
        end
    end.
Proof.
  intros Hsymbol. unfold Binance.fetchLargeTransactions. rewrite Hsymbol.
  do 4 eexists. split; [apply callAPI_returns|]. split; [apply callAPI_returns|].
  unfold mbind, M_mbind, M_bind, mret, M_mret, M_ret, lift.
  rewrite !callAPI_returns. cbv zeta.
  destruct (get_property _ "price") as [p|e]; [|reflexivity].
  cbn [fmap result_fmap].
  destruct (Binance.processTrades _ _ _) as [txs|e]; reflexivity.
Qed.

Lemma fetchLargeTransactions_unsupported (chain : string) (limit : Z) (w : world) :
  Binance.symbols !! chain = None ->
  Binance.fetchLargeTransactions chain limit w = (Throw (Error ("不支持的链: " ++ chain)), w).
Proof.
  intros Hnone. unfold Binance.fetchLargeTransactions. rewrite Hnone. reflexivity.
Qed.

Lemma getLargeTransactions_miss (chain : string) (limit : Z) (w : world) :
  cache_hit (Binance.transactions_key chain limit) w = false ->
  Binance.getLargeTransactions chain limit w =
  match Binance.fetchLargeTransactions chain limit
          (snd (Cache.get (Binance.transactions_key chain limit) w)) with
  | (Return v, w') => (Return v, w')
  | (Throw _, w') => (Return (AArr []), w')
  end.
Proof.
  unfold cache_hit, Binance.getLargeTransactions. cbv zeta.
  unfold mbind, M_mbind, M_bind at 1.
  destruct (Cache_get_returns (Binance.transactions_key chain limit) w) as [cached ->].
  cbn [fst snd]. intros ->. reflexivity.
Qed.

Lemma getLargeTransactions_hit (chain : string) (limit : Z) (w : world) (it : item) :
  storage w !! Binance.transactions_key chain limit = Some it ->
  now w <= expiry it -> truthy (value it) = true ->
  Binance.getLargeTransactions chain limit w = (Return (value it), w).
Proof.
  intros Hit Hfresh Htruthy. unfold Binance.getLargeTransactions. cbv zeta.
  unfold mbind, M_mbind, M_bind at 1.
  rewrite (Cache_get_fresh _ _ _ Hit Hfresh), Htruthy. reflexivity.
Qed.


End Adapter.


(** ** The price lookup *)

Section Price.
Context {B : Builtins}.

(** [getPrice] on a miss, step by step. *)
Lemma getPrice_miss (chain : string) (w : world) :
  cache_hit (Binance.price_key chain) w = false ->
  exists ticker w1,
    Binance.callAPI (Binance.ticker_endpoint (Binance.spliced (Binance.symbols !! chain)))
      (snd (Cache.get (Binance.price_key chain) w)) = (Return ticker, w1) /\
    Binance.getPrice chain w =
    match get_property ticker "price" with
    | Throw _ => (Return (ANum (Binance.defaultPrice chain)), w1)
    | Return p =>
        (Return (ANum (parseFloat p)),
         snd (Cache.set (Binance.price_key chain) (ANum (parseFloat p)) (60 * 1000) w1))
    end.
Proof.
  unfold cache_hit, Binance.getPrice. cbv zeta.
  unfold mbind, M_mbind, M_bind at 1.
  destruct (Cache_get_returns (Binance.price_key chain) w) as [cached ->].
  cbn [fst snd]. intros ->.
  do 2 eexists. split; [apply callAPI_returns|].
  unfold try_catch, Binance.fetchPrice. cbv zeta.
  unfold mbind, M_mbind, M_bind, mret, M_mret, M_ret, lift.
  rewrite callAPI_returns. cbv zeta.
  destruct (get_property _ "price") as [p|e]; reflexivity.
Qed.

(** When the price request fails, [callAPI] hands back an empty array, its
    [price] property is [undefined], and NaN is cached and returned. *)
Lemma getPrice_failed_request (chain : string) (w : world) (e : error) (w1 : world) :
  cache_hit (Binance.price_key chain) w = false ->
  API.fetchWithRetry
    (Binance.baseURL ++ Binance.ticker_endpoint (Binance.spliced (Binance.symbols !! chain)))
    [] 3 (snd (Cache.get (Binance.price_key chain) w)) = (Throw e, w1) ->
  Binance.getPrice chain w =
  (Return (ANum NaN), snd (Cache.set (Binance.price_key chain) (ANum NaN) (60 * 1000) w1)).
Proof.
  intros Hmiss Hfail.
  destruct (getPrice_miss chain w Hmiss) as (ticker & w1' & Hcall & ->).
  rewrite callAPI_returns in Hcall. cbv zeta in Hcall. rewrite Hfail in Hcall.
  cbn [fst snd] in Hcall. injection Hcall as <- <-. reflexivity.
Qed.

(** The fallback price is returned when the body of the answer is [null]. *)
Lemma getPrice_null_ticker (chain : string) (w w1 : world) :
  cache_hit (Binance.price_key chain) w = false ->
  Binance.callAPI (Binance.ticker_endpoint (Binance.spliced (Binance.symbols !! chain)))
    (snd (Cache.get (Binance.price_key chain) w)) = (Return JNull, w1) ->
  Binance.getPrice chain w = (Return (ANum (Binance.defaultPrice chain)), w1).
Proof.
  intros Hmiss Hnull.
  destruct (getPrice_miss chain w Hmiss) as (ticker & w1' & Hcall & ->).
  rewrite Hnull in Hcall. injection Hcall as <- <-. reflexivity.
Qed.

(** C6, at a failing input.  With nothing cached and every request
    rejected, [getPrice('btc')] sends its three requests and returns NaN,
    not the fallback 95000; NaN is what it leaves in the cache. *)
Theorem getPrice_offline_returns_NaN :
  let run := Binance.getPrice "btc" (initial_world offline 0) in
  fst run = Return (ANum NaN) /\
  sent (snd run) = 3%nat /\
  storage (snd run) !! Binance.price_key "btc" = Some (mkItem (ANum NaN) (360 + 2000 + 60000)) /\
  Binance.defaultPrice "btc" = number_of_Z 95000.
Proof.
  vm_compute. repeat split; reflexivity.
Qed.

End Price.

(** ** Hits and misses *)

Section HitTest.
Context {B : Builtins}.





(** C10, as amended.  On a miss for a supported asset, when the request for
    the recent trades fails and reading the price from the answer of the
    price request does not throw, the empty list is returned and stored
    under the key of the asset and limit, to expire 60000 ms later; while
    that entry is in the store and the clock has not passed its expiry, a
    call for the asset and limit returns the empty list and leaves the
    world, its request log included, as it was. *)
Theorem failed_trades_request_is_cached
    (chain : string) (limit : Z) (symbol : string) (w : world)
    (e : error) (w1 : world) (ticker p : jsval) (w2 : world) :
  let key := Binance.transactions_key chain limit in
  let w0 := snd (Cache.get key w) in
  let entry := mkItem (AArr []) (now w2 + 60 * 1000) in
  Binance.symbols !! chain = Some symbol ->
  cache_hit key w = false ->
  API.fetchWithRetry (Binance.baseURL ++ Binance.trades_endpoint symbol) [] 3 w0
    = (Throw e, w1) ->
  Binance.callAPI (Binance.ticker_endpoint symbol) w1 = (Return ticker, w2) ->
  get_property ticker "price" = Return p ->
  Binance.callAPI (Binance.trades_endpoint symbol) w0 = (Return (JArr []), w1) /\
  exists w',
    Binance.getLargeTransactions chain limit w = (Return (AArr []), w') /\
    storage w' !! key = Some entry /\
    forall later,
      storage later !! key = Some entry -> now later <= now w2 + 60 * 1000 ->
      Binance.getLargeTransactions chain limit later = (Return (AArr []), later).
Proof.
  intros key w0 entry Hsymbol Hmiss Hfail Hticker Hprice.
  assert (Htrades : Binance.callAPI (Binance.trades_endpoint symbol) w0
                    = (Return (JArr []), w1)).
  { rewrite callAPI_returns. cbv zeta. rewrite Hfail. reflexivity. }
  split; [exact Htrades|].
  rewrite (getLargeTransactions_miss _ _ _ Hmiss). fold key. fold w0.
  destruct (fetchLargeTransactions_run chain limit symbol w0 Hsymbol)
    as (trades & ticker' & w1' & w2' & Htrades' & Hticker' & ->).
  rewrite Htrades in Htrades'. injection Htrades' as <- <-.
  rewrite Hticker in Hticker'. injection Hticker' as <- <-.
  rewrite Hprice. cbn [Binance.processTrades iterate mbind result_mbind result_bind
                       mret result_mret Binance.process_each].
  rewrite sortedTxs_nil.
  eexists. split; [reflexivity|]. split.
  - cbn [snd Cache.set modify storage with_storage]. apply lookup_insert_eq.
  - intros later Hentry Hfresh.
    apply (getLargeTransactions_hit chain limit later entry Hentry Hfresh). reflexivity.
Qed.

End HitTest.

(** ** The controller *)

Section Controller.
Context {B : Builtins}.

Lemma fresh_not_allocated (h : gmap loc (list Transaction)) (l : loc)
    (xs : list Transaction) :
  h !! l = Some xs -> fresh (dom h) <> l.
Proof.
  intros Hl Heq. apply (is_fresh (dom h)). rewrite Heq.
  apply elem_of_dom. eauto.
Qed.

(** Rendering completes, leaves the controller state and the array it
    stores untouched, and shows either the list or the empty panel, never
    the error panel. *)
Lemma renderTransactions_frame (w : world) (stored : list Transaction) :
  heap w !! transactions (controller w) = Some stored ->
  exists w',
    App.renderTransactions w = (Return tt, w') /\
    controller w' = controller w /\
    heap w' !! transactions (controller w) = Some stored /\
    storage w' = storage w /\ sent w' = sent w /\ trace w' = trace w /\
    errorState_hidden (document w') = true /\
    errorMessage (document w') = errorMessage (document w) /\
    transactionsContainer_hidden (document w') = negb (emptyState_hidden (document w')).
Proof.
  intros Hstored.
  unfold App.renderTransactions.
  unfold App.read, App.alloc, App.sort, App.showEmpty, App.showTransactions.
  unfold mbind, M_mbind, M_bind, mret, M_mret, M_ret, gets, modify.
  cbn [controller heap with_heap with_dom].
  rewrite Hstored. cbn [default].
  pose proof (fresh_not_allocated _ _ _ Hstored) as Hcopy.
  set (copy := fresh (dom (heap w))) in *.
  destruct (negb (String.eqb (currentChain (controller w)) "all")).
  - cbn [controller heap with_heap with_dom].
    rewrite lookup_insert_eq. cbn [default].
    assert (Hfiltered : fresh (dom (<[copy:=stored]> (heap w))) <> transactions (controller w)).
    { apply (fresh_not_allocated _ _ stored). rewrite lookup_insert_ne; assumption. }
    set (filtered := fresh (dom (<[copy:=stored]> (heap w)))) in *.
    destruct (String.eqb (currentSort (controller w)) "amount");
      cbn [controller heap with_heap with_dom]; rewrite !lookup_insert_eq; cbn [default];
      match goal with
      | |- context [(length ?v =? 0)%nat] => destruct (length v =? 0)%nat
      end;
      (eexists; split; [reflexivity|]; cbn;
       rewrite !lookup_insert_ne by assumption; auto 10).
  - destruct (String.eqb (currentSort (controller w)) "amount");
      cbn [controller heap with_heap with_dom]; rewrite !lookup_insert_eq; cbn [default];
      match goal with
      | |- context [(length ?v =? 0)%nat] => destruct (length v =? 0)%nat
      end;
      (eexists; split; [reflexivity|]; cbn;
       rewrite !lookup_insert_ne by assumption; auto 10).
Qed.

(** C8.  [renderTransactions] works on a copy: the array that
    [state.transactions] refers to holds the same elements in the same
    order afterwards, and [state.transactions] still refers to it. *)
Theorem renderTransactions_keeps_stored_list (w : world) (stored : list Transaction) :
  heap w !! transactions (controller w) = Some stored ->
  let w' := snd (App.renderTransactions w) in
  transactions (controller w') = transactions (controller w) /\
  heap w' !! transactions (controller w') = Some stored.
Proof.
  intros Hstored.
  destruct (renderTransactions_frame w stored Hstored) as (w' & -> & Happ & Hheap & _).
  cbn [snd]. rewrite Happ. split; [reflexivity|exact Hheap].
Qed.

Lemma renderTransactions_nothing_stored (w : world) :
  heap w !! transactions (controller w) = Some [] ->
  emptyState_hidden (document (snd (App.renderTransactions w))) = false.
Proof.
  intros Hstored.
  unfold App.renderTransactions.
  unfold App.read, App.alloc, App.sort, App.showEmpty, App.showTransactions.
  unfold mbind, M_mbind, M_bind, mret, M_mret, M_ret, gets, modify.
  cbn [controller heap with_heap with_dom].
  rewrite Hstored. cbn [default].
  destruct (negb (String.eqb (currentChain (controller w)) "all"));
    destruct (String.eqb (currentSort (controller w)) "amount");
    cbn [controller heap with_heap with_dom]; rewrite !lookup_insert_eq; reflexivity.
Qed.

Lemma push_fulfilled_run (r : settled) (w : world) (xs : list Transaction) :
  spreadable r = true ->
  heap w !! transactions (controller w) = Some xs ->
  exists w',
    App.push_fulfilled r w = (Return tt, w') /\
    controller w' = controller w /\ document w' = document w /\ now w' = now w /\
    heap w' !! transactions (controller w) = Some (xs ++ settled_transactions r)%list.
Proof.
  intros Hr Hxs. destruct r as [[| | | |txs]|e]; try discriminate.
  - unfold App.push_fulfilled, App.push.
    unfold mbind, M_mbind, M_bind, lift, gets, modify. cbn.
    eexists. split; [reflexivity|]. cbn.
    rewrite lookup_insert_eq, Hxs. auto.
  - eexists. split; [reflexivity|]. cbn. rewrite app_nil_r. auto.
Qed.

(** Once the three requests have settled, rejected or with an array each,
    the controller stores the transactions of the fulfilled ones, in the
    order btc, eth, sol, and the error panel stays hidden. *)
Lemma merge_loaded (btcTxs ethTxs solTxs : settled) (w : world) :
  spreadable btcTxs = true -> spreadable ethTxs = true -> spreadable solTxs = true ->
  exists w',
    App.merge btcTxs ethTxs solTxs w = (Return tt, w') /\
    heap w' !! transactions (controller w') =
      Some (settled_transactions btcTxs ++ settled_transactions ethTxs ++
            settled_transactions solTxs)%list /\
    errorState_hidden (document w') = true /\
    errorMessage (document w') = errorMessage (document w) /\
    (settled_transactions btcTxs ++ settled_transactions ethTxs ++
     settled_transactions solTxs = [] -> emptyState_hidden (document w') = false)%list.
Proof.
  intros Hb He Hs. unfold App.merge.
  unfold mbind, M_mbind, M_bind at 1. unfold App.alloc at 1.
  unfold mbind, M_mbind, M_bind at 1. unfold modify at 1.
  set (w1 := with_controller _ (with_heap _ w)).
  assert (H1 : heap w1 !! transactions (controller w1) = Some []).
  { subst w1. cbn. apply lookup_insert_eq. }
  assert (Hd1 : document w1 = document w) by reflexivity.
  unfold mbind, M_mbind, M_bind at 1.
  destruct (push_fulfilled_run btcTxs w1 [] Hb H1) as (w2 & -> & Hc2 & Hd2 & _ & H2).
  rewrite <- Hc2 in H2.
  unfold mbind, M_mbind, M_bind at 1.
  destruct (push_fulfilled_run ethTxs w2 _ He H2) as (w3 & -> & Hc3 & Hd3 & _ & H3).
  rewrite <- Hc3 in H3.
  unfold mbind, M_mbind, M_bind at 1.
  destruct (push_fulfilled_run solTxs w3 _ Hs H3) as (w4 & -> & Hc4 & Hd4 & _ & H4).
  rewrite <- Hc4 in H4.
  unfold mbind, M_mbind, M_bind, gets, modify, App.updateLastUpdateTime, mret, M_mret, M_ret.
  set (w5 := with_controller _ w4).
  assert (H5 : heap w5 !! transactions (controller w5) =
               Some (settled_transactions btcTxs ++ settled_transactions ethTxs ++
                     settled_transactions solTxs)%list).
  { subst w5. cbn. cbn in H4. rewrite H4, <- app_assoc. reflexivity. }
  assert (Hd5 : document w5 = document w).
  { subst w5. cbn. congruence. }
  destruct (renderTransactions_frame w5 _ H5)
    as (w' & Hrender & Hc & Hheap & _ & _ & _ & Herr & Hmsg & _).
  pose proof (renderTransactions_nothing_stored w5) as Hempty.
  rewrite Hrender in Hempty |- *. cbn [snd] in Hempty.
  exists w'. split; [reflexivity|]. rewrite Hc.
  split; [exact Hheap|]. split; [exact Herr|]. split; [congruence|].
  intros Hnone. apply Hempty. rewrite H5, Hnone. reflexivity.
Qed.

(** The [catch] block of [loadData] with nothing stored: the error panel is
    shown with the message of the error, or with the stock text when the
    message is empty. *)
Lemma recover_nothing_stored (e : error) (w : world) :
  heap w !! transactions (controller w) = Some [] ->
  let d := document (snd (App.recover e w)) in
  errorState_hidden d = false /\
  errorMessage d =
    (if String.eqb (message e) "" then "无法获取交易数据，请稍后重试" else message e).
Proof.
  intros Hstored. unfold App.recover, App.read.
  unfold mbind, M_mbind, M_bind, gets. cbn [controller heap].
  rewrite Hstored. split; reflexivity.
Qed.

(** It is reached when a fulfilled value is not an array, as a cached
    value that is truthy but not iterable is. *)
Lemma merge_not_iterable_shows_error (ethTxs solTxs : settled) (w : world) :
  let d := document (snd (try_catch (App.merge (fulfilled (ABool true)) ethTxs solTxs)
                            App.recover w)) in
  errorState_hidden d = false /\
  errorMessage d = "Spread syntax requires ...iterable[Symbol.iterator] to be a function".
Proof.
  unfold try_catch, App.merge, App.alloc, App.push_fulfilled.
  unfold mbind, M_mbind, M_bind, modify, lift. cbn [App.spread].
  match goal with
  | |- context [App.recover ?e ?w1] =>
      destruct (recover_nothing_stored e w1) as [Hshown Htext];
        [cbn; apply lookup_insert_eq|]
  end.
  split; [exact Hshown|exact Htext].
Qed.

(** When all three requests are rejected, nothing reaches the [catch] of
    [loadData]: the controller stores an empty list and shows the empty
    panel; the error panel stays hidden and no message is written. *)
Lemma merge_all_rejected_shows_empty (e1 e2 e3 : error) (w : world) :
  exists w',
    try_catch (App.merge (rejected e1) (rejected e2) (rejected e3)) App.recover w
      = (Return tt, w') /\
    heap w' !! transactions (controller w') = Some [] /\
    errorState_hidden (document w') = true /\
    emptyState_hidden (document w') = false /\
    errorMessage (document w') = errorMessage (document w).
Proof.
  destruct (merge_loaded (rejected e1) (rejected e2) (rejected e3) w)
    as (w' & Hrun & Hheap & Herr & Hmsg & Hempty); try reflexivity.
  exists w'. unfold try_catch. rewrite Hrun.
  split; [reflexivity|]. split; [exact Hheap|]. split; [exact Herr|].
  split; [apply Hempty; reflexivity|exact Hmsg].
Qed.

End Controller.

(** C7, at a failing input.  The page is opened while every request is
    rejected: all three per-asset fetches fail and the aggregate list is
    empty, yet [loadData] ends with the empty panel shown, the error panel
    hidden and no error message. *)
Theorem loadData_offline_shows_empty_panel :
  let run := @App.loadData reference_builtins false (initial_world offline 0) in
  fst run = Return tt /\
  sent (snd run) = 18%nat /\
  heap (snd run) !! transactions (controller (snd run)) = Some [] /\
  errorState_hidden (document (snd run)) = true /\
  emptyState_hidden (document (snd run)) = false /\
  errorMessage (document (snd run)) = "" /\
  isLoading (controller (snd run)) = false.
Proof. vm_compute. repeat split; reflexivity. Qed.

(** ** The properties on concrete runs *)

Lemma fetchWithRetry_three_attempts_witness :
  let url := Binance.baseURL ++ Binance.trades_endpoint "BTCUSDT" in
  let w := initial_world offline 0 in
  exists e1 w1 e2 w2 e3 w3,
    @API.fetch reference_builtins url [] w = (Throw e1, w1) /\
    @API.fetch reference_builtins url [] (snd (API.delay 1000 w1)) = (Throw e2, w2) /\
    @API.fetch reference_builtins url [] (snd (API.delay 1000 w2)) = (Throw e3, w3) /\
    @API.fetchWithRetry reference_builtins url [] 3 w = (Throw e3, w3) /\
    sent w3 = (sent w + 3)%nat /\
    trace w3 =
      (trace w ++ [Request url []; Sleep 1000; Request url []; Sleep 1000; Request url []])%list.
Proof.
  intros url w.
  apply (proj2 (@fetchWithRetry_three_attempts reference_builtins url [] w)).
  intros n. reflexivity.
Defined.


Lemma renderTransactions_keeps_stored_list_witness :
  let w' := snd (App.renderTransactions loaded_world) in
  transactions (controller w') = transactions (controller loaded_world) /\
  heap w' !! transactions (controller w') = Some sample_survivors.
Proof.
  apply (renderTransactions_keeps_stored_list loaded_world sample_survivors).
  reflexivity.
Defined.



Lemma failed_trades_request_is_cached_witness :
  let w := initial_world offline 0 in
  let key := @Binance.transactions_key reference_builtins "btc" 20 in
  let w0 := snd (Cache.get key w) in
  let w1 := snd (@API.fetchWithRetry reference_builtins
                   (Binance.baseURL ++ Binance.trades_endpoint "BTCUSDT") [] 3 w0) in
  let w2 := snd (@Binance.callAPI reference_builtins (Binance.ticker_endpoint "BTCUSDT") w1) in
  let entry := mkItem (AArr []) (now w2 + 60 * 1000) in
  @Binance.callAPI reference_builtins (Binance.trades_endpoint "BTCUSDT") w0
    = (Return (JArr []), w1) /\
  exists w',
    @Binance.getLargeTransactions reference_builtins "btc" 20 w = (Return (AArr []), w') /\
    storage w' !! key = Some entry /\
    forall later,
      storage later !! key = Some entry -> now later <= now w2 + 60 * 1000 ->
      @Binance.getLargeTransactions reference_builtins "btc" 20 later
        = (Return (AArr []), later).
Proof.
  intros w key w0 w1 w2 entry.
  apply (@failed_trades_request_is_cached reference_builtins "btc" 20 "BTCUSDT" w
           (TypeError "Failed to fetch") w1 (JArr []) JUndefined w2);
    vm_compute; reflexivity.
Defined.

(** C10 as stated fails when the price request is answered with the body
    [null]: the requests for the trades fail, reading [price] of [null]
    throws, the empty list is returned but nothing is stored, and the next
    call sends its requests again. *)
Lemma failed_trades_request_not_cached :
  let w := initial_world null_price 0 in
  let key := @Binance.transactions_key reference_builtins "btc" 20 in
  let run := @Binance.getLargeTransactions reference_builtins "btc" 20 w in
  let again := @Binance.getLargeTransactions reference_builtins "btc" 20 (snd run) in
  fst (@API.fetchWithRetry reference_builtins
         (Binance.baseURL ++ Binance.trades_endpoint "BTCUSDT") [] 3 w)
    = Throw (TypeError "Failed to fetch") /\
  fst run = Return (AArr []) /\
  storage (snd run) !! key = None /\
  sent (snd run) = 4%nat /\
  now (snd again) <= now (snd run) + 60 * 1000 /\
  sent (snd again) = 8%nat.
Proof. vm_compute. repeat split; try reflexivity. discriminate. Qed.

(** * Further properties *)

(** ** The cache: composition of its operations *)

(** X1.  A value that was [set] with a ttl is what [get] returns for the
    same key as long as no more than ttl milliseconds have passed, and the
    store stays as it is; once more than ttl milliseconds have passed,
    [get] returns [null] and removes the entry. *)
Theorem Cache_set_get_within_ttl (key : string) (v : any) (ttl ms : Z) (w : world) :
  let later := elapse ms (Sleep ms) (snd (Cache.set key v ttl w)) in
  (ms <= ttl -> Cache.get key later = (Return v, later)) /\
  (ttl < ms ->
   Cache.get key later = (Return ANull, with_storage (delete key) later) /\
   storage (with_storage (delete key) later) !! key = None).
Proof.
  intros later.
  assert (Hstored : storage later !! key = Some (mkItem v (now w + ttl)))
    by apply lookup_insert_eq.
  assert (Hnow : now later = now w + ms) by reflexivity.
  split.
  - intros Hms. apply (Cache_get_fresh key later _ Hstored). simpl. lia.
  - intros Hms. split; [|apply lookup_delete_eq].
    unfold Cache.get. rewrite Hstored. cbn [expiry].
    replace (now w + ttl <? now later) with true; [reflexivity|].
    symmetry. apply Z.ltb_lt. lia.
Qed.

Lemma Cache_set_get_within_ttl_witness :
  let later := elapse 1000 (Sleep 1000)
                 (snd (Cache.set "k" (ANum (number_of_Z 42)) 1000 (initial_world offline 0))) in
  let too_late := elapse 1001 (Sleep 1001)
                 (snd (Cache.set "k" (ANum (number_of_Z 42)) 1000 (initial_world offline 0))) in
  Cache.get "k" later = (Return (ANum (number_of_Z 42)), later) /\
  Cache.get "k" too_late = (Return ANull, with_storage (delete "k") too_late).
Proof.
  split.
  - apply (proj1 (Cache_set_get_within_ttl "k" (ANum (number_of_Z 42)) 1000 1000
                    (initial_world offline 0))). lia.
  - apply (proj2 (Cache_set_get_within_ttl "k" (ANum (number_of_Z 42)) 1000 1001
                    (initial_world offline 0))). lia.
Defined.



(** X3.  [has] is [get(key) !== null], with the effect of [get]: it answers
    [false] for an expired entry and removes it, and it answers [false] for
    an entry that is there, has not expired and holds [null]; otherwise an
    entry that has not expired gives [true]. *)
Theorem Cache_has_evicts_and_hides_null (key : string) (w : world) (it : item) :
  storage w !! key = Some it ->
  (expiry it < now w ->
   Cache.has key w = (Return false, with_storage (delete key) w)) /\
  (now w <= expiry it ->
   Cache.has key w = (Return (negb (is_null (value it))), w)).
Proof.
  intros Hit. unfold Cache.has. unfold mbind, M_mbind, M_bind, Cache.get.
  rewrite Hit. split.
  - intros Hold. apply Z.ltb_lt in Hold. rewrite Hold. reflexivity.
  - intros Hfresh. apply Z.ltb_ge in Hfresh. rewrite Hfresh.
    destruct (value it); reflexivity.
Qed.

Lemma Cache_has_evicts_and_hides_null_witness :
  let w := snd (Cache.set "k" ANull 1000 (initial_world offline 0)) in
  Cache.has "k" w = (Return (negb (is_null ANull)), w).
Proof.
  intros w.
  apply (proj2 (Cache_has_evicts_and_hides_null "k" w (mkItem ANull 1000) eq_refl)).
  simpl. lia.
Defined.

(** X4.  Reading a key twice is the same as reading it once: the second
    [get] returns what the first returned and changes nothing more; and a
    [get] never adds an entry to the store. *)
Theorem Cache_get_idempotent (key : string) (w : world) :
  Cache.get key (snd (Cache.get key w)) = Cache.get key w /\
  (forall other it,
     storage (snd (Cache.get key w)) !! other = Some it -> storage w !! other = Some it).
Proof.
  unfold Cache.get.
  destruct (storage w !! key) as [it|] eqn:Hit.
  - destruct (expiry it <? now w) eqn:Hold; cbn [snd].
    + split.
      * cbn. rewrite lookup_delete_eq. reflexivity.
      * intros other it' Hother. cbn in Hother.
        apply lookup_delete_Some in Hother. tauto.
    + rewrite Hit, Hold. auto.
  - cbn [snd]. rewrite Hit. auto.
Qed.

Lemma count_split {A} (f : A -> bool) (l : list A) :
  (length (List.filter (fun x => negb (f x)) l) + length (List.filter f l))%nat = length l.
Proof.
  induction l as [|x l IH]; [reflexivity|].
  simpl. destruct (f x); simpl; lia.
Qed.

(** X5.  [getStats] reads without purging: the store is unchanged, [total]
    is its number of entries, and every entry is counted once, as valid or
    as expired. *)
Theorem Cache_getStats_counts (w : world) :
  exists s,
    Cache.getStats w = (Return s, w) /\
    Cache.total s = size (storage w) /\
    (Cache.valid s + Cache.expired s)%nat = Cache.total s.
Proof.
  unfold Cache.getStats, gets. eexists. split; [reflexivity|].
  cbn [Cache.total Cache.valid Cache.expired]. split.
  - apply length_map_to_list.
  - apply count_split.
Qed.



Lemma count_Permutation {A} (f : A -> bool) (l l' : list A) :
  l ≡ₚ l' -> length (List.filter f l) = length (List.filter f l').
Proof.
  induction 1 as [|x l l' _ IH|x y l|l l' l'' _ IH1 _ IH2]; simpl.
  - reflexivity.
  - destruct (f x); simpl; congruence.
  - destruct (f x), (f y); reflexivity.
  - congruence.
Qed.

(** X7.  The entries [getStats] counts as expired are the ones a [get]
    purges: reading an expired key lowers [total] and [expired] by one
    and leaves [valid] as it is. *)
Theorem Cache_get_purges_one_expired (key : string) (w : world) (it : item) :
  storage w !! key = Some it -> expiry it < now w ->
  exists before after,
    fst (Cache.getStats w) = Return before /\
    fst (Cache.getStats (snd (Cache.get key w))) = Return after /\
    Cache.total before = S (Cache.total after) /\
    Cache.expired before = S (Cache.expired after) /\
    Cache.valid before = Cache.valid after.
Proof.
  intros Hit Hold.
  assert (Hget : snd (Cache.get key w) = with_storage (delete key) w).
  { unfold Cache.get. rewrite Hit. apply Z.ltb_lt in Hold. rewrite Hold. reflexivity. }
  rewrite Hget. unfold Cache.getStats, gets. cbn [fst].
  do 2 eexists. split; [reflexivity|]. split; [reflexivity|].
  cbn [Cache.total Cache.valid Cache.expired storage with_storage now].
  pose proof (map_to_list_delete (storage w) key it Hit) as Hperm.
  assert (Hexpired : (expiry it <? now w) = true)
    by (apply Z.ltb_lt; exact Hold).
  split; [|split].
  - rewrite <- (Permutation_length Hperm). reflexivity.
  - rewrite <- (count_Permutation _ _ _ Hperm). cbn [List.filter snd].
    rewrite Hexpired. reflexivity.
  - rewrite <- (count_Permutation _ _ _ Hperm). cbn [List.filter snd].
    rewrite Hexpired. reflexivity.
Qed.

Lemma Cache_get_purges_one_expired_witness :
  let w := elapse 1001 (Sleep 1001)
             (snd (Cache.set "k" (ANum (number_of_Z 42)) 1000 (initial_world offline 0))) in
  exists before after,
    fst (Cache.getStats w) = Return before /\
    fst (Cache.getStats (snd (Cache.get "k" w))) = Return after /\
    Cache.total before = S (Cache.total after) /\
    Cache.expired before = S (Cache.expired after) /\
    Cache.valid before = Cache.valid after.
Proof.
  intros w.
  apply (Cache_get_purges_one_expired "k" w (mkItem (ANum (number_of_Z 42)) 1000)).
  - reflexivity.
  - simpl. lia.
Defined.

(** ** The HTTP client: time-outs, giving up, recovering *)

Section Client.
Context {B : Builtins}.

(** X8.  A reply that takes longer than 10000 ms makes [fetch] throw
    Error('请求超时') after exactly 10000 ms; a response in time whose
    status is not a success makes it throw Error('HTTP status: statusText')
    without reading the body; and whatever goes wrong, the error [fetch]
    throws is never named AbortError. *)
Theorem fetch_times_out_and_hides_abort (url : string) (opts : options) (w : world) :
  (API.config_timeout < latency (net w (sent w) url opts) ->
   API.fetch url opts w
   = (Throw (Error "请求超时"), elapse API.config_timeout (Request url opts) w)) /\
  (forall status statusText body,
     latency (net w (sent w) url opts) <= API.config_timeout ->
     answer (net w (sent w) url opts) = Response false status statusText body ->
     fst (API.fetch url opts w)
     = Throw (Error ("HTTP " ++ Number_toString (number_of_Z status) ++ ": " ++ statusText))) /\
  (forall e, fst (API.fetch url opts w) = Throw e ->
             String.eqb (name e) "AbortError" = false).
Proof.
  unfold API.fetch, try_catch, API.platform_fetch.
  unfold mbind, M_mbind, M_bind, throw, lift.
  split; [|split].
  - intros Hslow. apply Z.ltb_lt in Hslow. rewrite Hslow. reflexivity.
  - intros status statusText body Hfast Hanswer.
    replace (API.config_timeout <? latency (net w (sent w) url opts)) with false
      by (symmetry; apply Z.ltb_ge; exact Hfast).
    rewrite Hanswer. reflexivity.
  - intros e.
    destruct (API.config_timeout <? latency (net w (sent w) url opts)); cbn.
    { intros [= <-]. reflexivity. }
    destruct (answer (net w (sent w) url opts)) as [e0|ok status text body]; cbn.
    { destruct (String.eqb (name e0) "AbortError") eqn:Hname; cbn; intros [= <-];
        [reflexivity|exact Hname]. }
    destruct ok; cbn.
    + destruct body as [data|e0]; cbn; [discriminate|].
      destruct (String.eqb (name e0) "AbortError") eqn:Hname; cbn; intros [= <-];
        [reflexivity|exact Hname].
    + intros [= <-]. reflexivity.
Qed.

(** A reply that is not failing is a successful response whose body is what
    [fetch] returns. *)
Lemma fetch_success (url : string) (opts : options) (w : world) :
  failing (net w (sent w) url opts) = false ->
  exists status statusText data,
    answer (net w (sent w) url opts) = Response true status statusText (Return data) /\
    API.fetch url opts w
    = (Return data, elapse (latency (net w (sent w) url opts)) (Request url opts) w).
Proof.
  unfold failing, API.fetch, try_catch, API.platform_fetch.
  unfold mbind, M_mbind, M_bind, throw, lift.
  destruct (API.config_timeout <? latency (net w (sent w) url opts)); [discriminate|].
  destruct (answer (net w (sent w) url opts)) as [e0|[] status text [data|e0]];
    cbn; try discriminate.
  intros _. eauto.
Qed.

(** X9.  When every request fails, [fetchWithRetry] gives up with an error
    after one request and, for [attempts] above 1, [attempts - 1] more,
    each a second after the failure before it; with [attempts] at 1 or
    below, zero and negative included, it sends exactly one request. *)
Theorem fetchWithRetry_gives_up (url : string) (opts : options) (attempts : Z) (w : world) :
  (forall n, failing (net w n url opts) = true) ->
  exists e w',
    API.fetchWithRetry url opts attempts w = (Throw e, w') /\
    trace w' = (trace w ++ retry_log url opts (Z.to_nat (attempts - 1)))%list /\
    sent w' = (sent w + S (Z.to_nat (attempts - 1)))%nat.
Proof.
  remember (Z.to_nat (attempts - 1)) as r eqn:Hr.
  revert attempts w Hr. induction r as [|r IH]; intros attempts w Hr Hfail;
    destruct (fetch_once url opts w) as (res & ms & Hfetch & Hthrows & _);
    destruct (Hthrows (Hfail _)) as [e ->].
  - exists e. eexists. split; [|split].
    + apply (fetchWithRetry_last _ _ _ _ _ _ Hfetch). lia.
    + reflexivity.
    + cbn. lia.
  - destruct (IH (attempts - 1)
                (snd (API.delay 1000 (elapse ms (Request url opts) w))))
      as (e' & w' & Hrun & Htrace & Hsent); [lia|exact Hfail|].
    exists e', w'. split; [|split].
    + rewrite (fetchWithRetry_retry _ _ _ _ _ _ Hfetch) by lia. exact Hrun.
    + rewrite Htrace. cbn. rewrite <- !app_assoc. reflexivity.
    + rewrite Hsent. cbn. lia.
Qed.

(** X10.  [fetchWithRetry] stops at the first request that succeeds: when
    the first [k] requests fail and the next one succeeds, with [k] below
    [attempts] (or [k] zero), the body of that response is returned after
    [k + 1] requests and [k] delays. *)
Theorem fetchWithRetry_stops_at_first_success
    (url : string) (opts : options) (attempts : Z) (k : nat) (w : world) :
  (forall i, (i < k)%nat -> failing (net w (sent w + i)%nat url opts) = true) ->
  failing (net w (sent w + k)%nat url opts) = false ->
  Z.of_nat k < Z.max 1 attempts ->
  exists data w',
    API.fetchWithRetry url opts attempts w = (Return data, w') /\
    trace w' = (trace w ++ retry_log url opts k)%list /\
    sent w' = (sent w + S k)%nat /\
    exists status statusText,
      answer (net w (sent w + k)%nat url opts)
      = Response true status statusText (Return data).
Proof.
  revert attempts w. induction k as [|k IH]; intros attempts w Hfail Hok Hk.
  - rewrite Nat.add_0_r in Hok.
    destruct (fetch_success url opts w Hok) as (status & text & data & Hanswer & Hfetch).
    exists data. eexists. split; [|split; [|split]].
    + rewrite fetchWithRetry_step, Hfetch. reflexivity.
    + reflexivity.
    + cbn. lia.
    + rewrite Nat.add_0_r. eauto.
  - destruct (fetch_once url opts w) as (res & ms & Hfetch & Hthrows & _).
    destruct Hthrows as [e ->].
    { specialize (Hfail 0%nat). rewrite Nat.add_0_r in Hfail. apply Hfail. lia. }
    set (w2 := snd (API.delay 1000 (elapse ms (Request url opts) w))).
    assert (Hsent2 : sent w2 = S (sent w)) by reflexivity.
    destruct (IH (attempts - 1) w2) as (data & w' & Hrun & Htrace & Hsent & Hanswer).
    + intros i Hi. rewrite Hsent2.
      replace (S (sent w) + i)%nat with (sent w + S i)%nat by lia.
      apply (Hfail (S i)). lia.
    + rewrite Hsent2. replace (S (sent w) + k)%nat with (sent w + S k)%nat by lia.
      exact Hok.
    + lia.
    + exists data, w'. split; [|split; [|split]].
      * rewrite (fetchWithRetry_retry _ _ _ _ _ _ Hfetch) by lia. exact Hrun.
      * rewrite Htrace. cbn. rewrite <- !app_assoc. reflexivity.
      * rewrite Hsent, Hsent2. lia.
      * rewrite Hsent2 in Hanswer.
        replace (S (sent w) + k)%nat with (sent w + S k)%nat in Hanswer by lia.
        exact Hanswer.
Qed.

End Client.

Lemma fetchWithRetry_gives_up_witness :
  exists e w',
    @API.fetchWithRetry reference_builtins "https://api.binance.com/api/v3/ping" [] 0
      (initial_world offline 0) = (Throw e, w') /\
    trace w' =
      (trace (initial_world offline 0) ++
       retry_log "https://api.binance.com/api/v3/ping" [] (Z.to_nat (0 - 1)))%list /\
    sent w' = (sent (initial_world offline 0) + S (Z.to_nat (0 - 1)))%nat.
Proof.
  apply (@fetchWithRetry_gives_up reference_builtins
           "https://api.binance.com/api/v3/ping" [] 0 (initial_world offline 0)).
  intros n. reflexivity.
Defined.

Lemma fetchWithRetry_stops_at_first_success_witness :
  exists data w',
    @API.fetchWithRetry reference_builtins "https://api.binance.com/api/v3/ping" [] 3
      (initial_world flaky 0) = (Return data, w') /\
    trace w' =
      (trace (initial_world flaky 0) ++
       retry_log "https://api.binance.com/api/v3/ping" [] 1)%list /\
    sent w' = (sent (initial_world flaky 0) + 2)%nat /\
    exists status statusText,
      answer (flaky (sent (initial_world flaky 0) + 1)%nat
                "https://api.binance.com/api/v3/ping" [])
      = Response true status statusText (Return data).
Proof.
  apply (@fetchWithRetry_stops_at_first_success reference_builtins
           "https://api.binance.com/api/v3/ping" [] 3 1 (initial_world flaky 0)).
  - intros i Hi. assert (i = 0%nat) as -> by lia. reflexivity.
  - reflexivity.
  - simpl. lia.
Defined.

(** ** Shortening an address *)

Lemma length_list_ascii_of_string (s : string) :
  length (list_ascii_of_string s) = String.length s.
Proof. induction s as [|a s IH]; simpl; [reflexivity|rewrite IH; reflexivity]. Qed.

Lemma length_string_of_list_ascii (l : list ascii) :
  String.length (string_of_list_ascii l) = length l.
Proof. induction l as [|a l IH]; simpl; [reflexivity|rewrite IH; reflexivity]. Qed.

Lemma string_length_append (s1 s2 : string) :
  String.length (s1 ++ s2) = (String.length s1 + String.length s2)%nat.
Proof. induction s1 as [|a s1 IH]; simpl; [reflexivity|rewrite IH; reflexivity]. Qed.

Lemma Array_slice_suffix {A} (n : Z) (l : list A) :
  0 < n < Z.of_nat (length l) ->
  Array_slice (- n) (Z.of_nat (length l)) l = drop (Z.to_nat (Z.of_nat (length l) - n)) l.
Proof.
  intros Hn. unfold Array_slice.
  replace (- n <? 0) with true by (symmetry; apply Z.ltb_lt; lia).
  replace (Z.of_nat (length l) <? 0) with false by (symmetry; apply Z.ltb_ge; lia).
  rewrite Z.max_l by lia. rewrite Z.min_id.
  apply take_ge. rewrite length_drop. lia.
Qed.

Lemma Array_slice_all {A} (l : list A) :
  Array_slice 0 (Z.of_nat (length l)) l = l.
Proof.
  rewrite Array_slice_prefix by lia. apply take_ge. lia.
Qed.

(** X11.  On an address of one-byte characters: an address no longer than
    [startLength + endLength] is returned as it is.  A longer one, for a [startLength] that is not negative and
    an [endLength] above zero, becomes its first [startLength] characters,
    three dots and its last [endLength] characters: [startLength + 3 +
    endLength] characters, which is more than the address had when it was
    only one or two characters over. *)
Theorem shortenAddress_keeps_both_ends (address : string) (startLength endLength : Z) :
  let len := Z.of_nat (String.length address) in
  let chars := list_ascii_of_string address in
  (len <= startLength + endLength ->
   API.shortenAddress address startLength endLength = address) /\
  (0 <= startLength -> 0 < endLength -> startLength + endLength < len ->
   API.shortenAddress address startLength endLength =
     string_of_list_ascii (take (Z.to_nat startLength) chars) ++ "..." ++
     string_of_list_ascii (drop (Z.to_nat (len - endLength)) chars) /\
   Z.of_nat (String.length (API.shortenAddress address startLength endLength))
     = startLength + 3 + endLength).
Proof.
  intros len chars. unfold API.shortenAddress. fold len. split.
  - intros Hshort. apply Z.leb_le in Hshort. rewrite Hshort, orb_true_r. reflexivity.
  - intros Hstart Hend Hlong.
    assert (Hlen : Z.of_nat (length chars) = len).
    { subst chars len. rewrite length_list_ascii_of_string. reflexivity. }
    assert (Hnonempty : String.eqb address "" = false).
    { destruct address; [simpl in len; lia|reflexivity]. }
    rewrite Hnonempty. replace (len <=? startLength + endLength) with false
      by (symmetry; apply Z.leb_gt; exact Hlong).
    cbn [orb]. unfold String_slice_from, String_slice. fold chars. fold len.
    rewrite Array_slice_prefix by exact Hstart.
    rewrite <- Hlen, Array_slice_suffix by lia. rewrite Hlen.
    split; [reflexivity|].
    rewrite !string_length_append, !length_string_of_list_ascii.
    rewrite length_take, length_drop. cbn [String.length]. lia.
Qed.

Lemma shortenAddress_keeps_both_ends_witness :
  API.shortenAddress "Binance Buyer" 6 4 = "Binanc...uyer" /\
  API.shortenAddress "Binance Sel" 6 4 =
    string_of_list_ascii (take (Z.to_nat 6) (list_ascii_of_string "Binance Sel")) ++ "..." ++
    string_of_list_ascii
      (drop (Z.to_nat (Z.of_nat (String.length "Binance Sel") - 4))
         (list_ascii_of_string "Binance Sel")) /\
  Z.of_nat (String.length (API.shortenAddress "Binance Sel" 6 4)) = 6 + 3 + 4.
Proof.
  split; [reflexivity|].
  apply (proj2 (shortenAddress_keeps_both_ends "Binance Sel" 6 4)); simpl; lia.
Defined.

(** X12.  On an address of one-byte characters: with [endLength] zero the
    tail is not empty but the whole address:
    [slice(-0)] is [slice(0)], so an address longer than [startLength]
    comes back as its first [startLength] characters, three dots and the
    address itself. *)
Theorem shortenAddress_zero_endLength (address : string) (startLength : Z) :
  0 <= startLength -> startLength < Z.of_nat (String.length address) ->
  API.shortenAddress address startLength 0 =
    string_of_list_ascii (take (Z.to_nat startLength) (list_ascii_of_string address))
    ++ "..." ++ address.
Proof.
  intros Hstart Hlong. unfold API.shortenAddress.
  assert (Hnonempty : String.eqb address "" = false).
  { destruct address; [simpl in Hlong; lia|reflexivity]. }
  rewrite Hnonempty, Z.add_0_r.
  replace (Z.of_nat (String.length address) <=? startLength) with false
    by (symmetry; apply Z.leb_gt; exact Hlong).
  cbn [orb]. unfold String_slice_from, String_slice.
  rewrite Array_slice_prefix by exact Hstart.
  change (- 0) with 0. rewrite <- length_list_ascii_of_string, Array_slice_all.
  rewrite string_of_list_ascii_of_string. reflexivity.
Qed.

Lemma shortenAddress_zero_endLength_witness :
  API.shortenAddress "binance_btc_2" 8 0 =
    string_of_list_ascii (take (Z.to_nat 8) (list_ascii_of_string "binance_btc_2"))
    ++ "..." ++ "binance_btc_2".
Proof. apply (shortenAddress_zero_endLength "binance_btc_2" 8); simpl; lia. Defined.

(** ** Relative times *)

Lemma number_sub_of_Z (a b : Z) :
  number_sub (number_of_Z a) (number_of_Z b) = number_of_Z (a - b).
Proof.
  unfold number_sub, number_of_Z, inject_Z, Qminus, Qplus, Qopp. cbn.
  f_equal. f_equal. lia.
Qed.

Lemma number_floor_div_of_Z (a b : Z) :
  0 < b ->
  number_floor (number_div (number_of_Z a) (number_of_Z b)) = number_of_Z (a / b).
Proof.
  intros Hb. unfold number_div, number_of_Z.
  replace (Qeq_bool (inject_Z b) 0) with false.
  - cbn [number_floor]. rewrite <- Zdiv_Qdiv. reflexivity.
  - symmetry. apply not_true_is_false. intros Hzero.
    apply Qeq_bool_iff in Hzero. unfold Qeq in Hzero. cbn in Hzero. lia.
Qed.

Lemma number_ltb_of_Z (a b : Z) :
  number_ltb (number_of_Z a) (number_of_Z b) = (a <? b).
Proof. unfold number_ltb, number_of_Z, Qltb. cbn. rewrite !Z.mul_1_r. reflexivity. Qed.

Lemma div_ltb (d k m : Z) : 0 < k -> (d / k <? m) = (d <? k * m).
Proof.
  intros Hk. destruct (Z.ltb_spec d (k * m)) as [Hlt|Hge].
  - apply Z.ltb_lt. apply Z.div_lt_upper_bound; assumption.
  - apply Z.ltb_ge. apply Z.div_le_lower_bound; assumption.
Qed.

Section RelativeTime.
Context {B : Builtins}.
Variable Date_toLocaleDateString : number -> string.

(** X13.  For a Date [d] milliseconds before now, [formatTimeAgo] answers
    '刚刚' when [d] is below a minute, a date in the future included; then
    whole minutes up to an hour, whole hours up to a day, whole days up to
    a week, each rounded down; and the locale's date from a week on. *)
Theorem formatTimeAgo_buckets (now t : Z) :
  let d := now - t in
  let out := API.formatTimeAgo Date_toLocaleDateString now (API.a_Date (number_of_Z t)) in
  (d < 60000 -> out = "刚刚") /\
  (60000 <= d < 3600000 ->
   out = Number_toString (number_of_Z (d / 60000)) ++ " 分钟前") /\
  (3600000 <= d < 86400000 ->
   out = Number_toString (number_of_Z (d / 3600000)) ++ " 小时前") /\
  (86400000 <= d < 604800000 ->
   out = Number_toString (number_of_Z (d / 86400000)) ++ " 天前") /\
  (604800000 <= d -> out = Date_toLocaleDateString (number_of_Z t)).
Proof.
  intros d out. subst out. unfold API.formatTimeAgo. cbv zeta.
  rewrite number_sub_of_Z. fold d.
  rewrite !number_floor_div_of_Z by lia.
  rewrite !number_ltb_of_Z.
  rewrite !Z.div_div by lia.
  rewrite !div_ltb by lia.
  change (1000 * 60) with 60000. change (60000 * 60) with 3600000.
  change (3600000 * 24) with 86400000. change (86400000 * 7) with 604800000.
  repeat split; intros Hd.
  - replace (d <? 60000) with true by (symmetry; apply Z.ltb_lt; lia). reflexivity.
  - replace (d <? 60000) with false by (symmetry; apply Z.ltb_ge; lia).
    replace (d <? 3600000) with true by (symmetry; apply Z.ltb_lt; lia). reflexivity.
  - replace (d <? 60000) with false by (symmetry; apply Z.ltb_ge; lia).
    replace (d <? 3600000) with false by (symmetry; apply Z.ltb_ge; lia).
    replace (d <? 86400000) with true by (symmetry; apply Z.ltb_lt; lia). reflexivity.
  - replace (d <? 60000) with false by (symmetry; apply Z.ltb_ge; lia).
    replace (d <? 3600000) with false by (symmetry; apply Z.ltb_ge; lia).
    replace (d <? 86400000) with false by (symmetry; apply Z.ltb_ge; lia).
    replace (d <? 604800000) with true by (symmetry; apply Z.ltb_lt; lia). reflexivity.
  - replace (d <? 60000) with false by (symmetry; apply Z.ltb_ge; lia).
    replace (d <? 3600000) with false by (symmetry; apply Z.ltb_ge; lia).
    replace (d <? 86400000) with false by (symmetry; apply Z.ltb_ge; lia).
    replace (d <? 604800000) with false by (symmetry; apply Z.ltb_ge; lia). reflexivity.
Qed.

(** An invalid Date falls through every comparison and is handed to the
    locale. *)
Lemma formatTimeAgo_invalid_date (now : Z) :
  API.formatTimeAgo Date_toLocaleDateString now (API.a_Date NaN) = Date_toLocaleDateString NaN.
Proof. reflexivity. Qed.

End RelativeTime.

(** ** The records the adapter builds, checked *)

Section Records.
Context {B : Builtins}.

Lemma processTrade_exchange_fill (chain : string) (trade : jsval) (tx : Transaction) :
  Binance.processTrade chain trade = Return (Some tx) -> exchange_fill chain tx.
Proof.
  unfold Binance.processTrade, exchange_fill.
  destruct trade; cbn -[parseFloat number_ltb]; try discriminate;
    match goal with
    | |- context [number_ltb ?a Binance.minUSD] =>
        destruct (number_ltb a Binance.minUSD); cbn -[parseFloat]; try discriminate
    end;
    intros [= <-]; cbn; repeat split; auto.
  destruct (jsval_truthy (own_property props "isBuyerMaker")); auto.
Qed.

Lemma process_each_exchange_fill (chain : string) (items : list jsval) :
  Forall (exchange_fill chain) (Binance.process_each chain items).
Proof.
  induction items as [|trade rest IH]; cbn [Binance.process_each]; [constructor|].
  destruct (Binance.processTrade chain trade) as [[tx|]|e] eqn:Htrade; auto.
  constructor; [|exact IH]. exact (processTrade_exchange_fill _ _ _ Htrade).
Qed.


(** X15.  Each trade is processed on its own: the Transactions of two
    lists of trades put together are those of the first followed by those
    of the second; a [null] among the trades is skipped and the others are
    kept; there are never more Transactions than trades; and a payload that
    is an object, a number, a boolean or [null] is not iterated but
    thrown on. *)
Theorem processTrades_one_by_one (chain : string) (before after : list jsval)
    (currentPrice : number) :
  Binance.processTrades chain (JArr (before ++ after)) currentPrice =
    Return (Binance.process_each chain before ++ Binance.process_each chain after)%list /\
  Binance.processTrades chain (JArr (before ++ JNull :: after)) currentPrice =
    Binance.processTrades chain (JArr (before ++ after)) currentPrice /\
  (length (Binance.process_each chain before) <= length before)%nat /\
  (forall payload,
     match payload with JArr _ | JStr _ => False | _ => True end ->
     exists e, Binance.processTrades chain payload currentPrice = Throw e).
Proof.
  assert (Happ : forall xs ys,
            Binance.process_each chain (xs ++ ys) =
            (Binance.process_each chain xs ++ Binance.process_each chain ys)%list).
  { intros xs ys. induction xs as [|trade xs IH]; [reflexivity|].
    cbn [app Binance.process_each]. rewrite IH.
    destruct (Binance.processTrade chain trade) as [[tx|]|e]; reflexivity. }
  split; [|split; [|split]].
  - unfold Binance.processTrades. cbn. rewrite Happ. reflexivity.
  - unfold Binance.processTrades. cbn. rewrite !Happ. reflexivity.
  - induction before as [|trade xs IH]; [reflexivity|].
    cbn [Binance.process_each length].
    destruct (Binance.processTrade chain trade) as [[tx|]|e]; cbn [length]; lia.
  - intros payload Hpayload. unfold Binance.processTrades.
    destruct payload; try contradiction; cbn; eauto.
Qed.

End Records.

(** ** What a fetched list looks like, and how long it is kept *)

Section Fetched.
Context {B : Builtins}.

Lemma sortedTxs_Forall (P : Transaction -> Prop) (l : list Transaction) (limit : Z) :
  Forall P l -> Forall P (Binance.sortedTxs l limit).
Proof.
  intros Hl. unfold Binance.sortedTxs, Array_slice.
  apply Forall_take, Forall_drop.
  rewrite (Array_sort_perm Transaction.amountUsd Binance.by_amount); [exact Hl|reflexivity].
Qed.

Lemma processTrades_checked (chain : string) (trades : jsval) (p : number)
    (txs : list Transaction) :
  Binance.processTrades chain trades p = Return txs ->
  Forall (fun tx => Transaction.chain tx = chain /\
                    number_ltb (Transaction.amountUsd tx) Binance.minUSD = false) txs.
Proof.
  unfold Binance.processTrades.
  destruct (iterate trades) as [items|e]; [|discriminate].
  cbn. intros [= <-]. apply Forall_and. split.
  - eapply Forall_impl; [apply process_each_exchange_fill|].
    intros tx Hfill. apply Hfill.
  - apply process_each_not_below.
Qed.

(** X16.  On a miss [getLargeTransactions] returns an array, whatever the
    network does: every Transaction in it is on the asset asked for, none
    has an amount that compares below 100000, and for a limit that is not
    negative there are no more than [limit] of them. *)
Theorem getLargeTransactions_fetched_list (chain : string) (limit : Z) (w : world) :
  cache_hit (Binance.transactions_key chain limit) w = false ->
  exists txs w',
    Binance.getLargeTransactions chain limit w = (Return (AArr txs), w') /\
    Forall (fun tx => Transaction.chain tx = chain /\
                      number_ltb (Transaction.amountUsd tx) Binance.minUSD = false) txs /\
    (0 <= limit -> Z.of_nat (length txs) <= limit).
Proof.
  intros Hmiss. rewrite (getLargeTransactions_miss _ _ _ Hmiss).
  set (w0 := snd (Cache.get (Binance.transactions_key chain limit) w)).
  assert (Hnone : forall w', exists txs w'',
            ((Return (AArr []), w') : result any * world) = (Return (AArr txs), w'') /\
            Forall (fun tx => Transaction.chain tx = chain /\
                      number_ltb (Transaction.amountUsd tx) Binance.minUSD = false) txs /\
            (0 <= limit -> Z.of_nat (length txs) <= limit)).
  { intros w'. exists [], w'. split; [reflexivity|]. split; [constructor|]. cbn. lia. }
  destruct (Binance.symbols !! chain) as [symbol|] eqn:Hsymbol.
  - destruct (fetchLargeTransactions_run chain limit symbol w0 Hsymbol)
      as (trades & ticker & w1 & w2 & _ & _ & ->).
    destruct (get_property ticker "price") as [p|e]; [|apply Hnone].
    destruct (Binance.processTrades chain trades (parseFloat p)) as [txs|e] eqn:Htxs;
      [|apply Hnone].
    do 2 eexists. split; [reflexivity|]. split.
    + apply sortedTxs_Forall. exact (processTrades_checked _ _ _ _ Htxs).
    + intros Hlimit. unfold Binance.sortedTxs.
      rewrite Array_slice_prefix by exact Hlimit. rewrite length_take. lia.
  - rewrite (fetchLargeTransactions_unsupported _ _ _ Hsymbol). apply Hnone.
Qed.

(** X17.  When the [try] block of [getLargeTransactions] completes, what
    it returns is stored under the key of the asset and limit for 60000 ms,
    and while that entry is in the store and has not expired a call for the
    same asset and limit returns the same value and leaves the world, its
    request log included, as it was. *)
Theorem getLargeTransactions_keeps_for_a_minute
    (chain : string) (limit : Z) (w : world) (v : any) (w1 : world) :
  let key := Binance.transactions_key chain limit in
  cache_hit key w = false ->
  Binance.fetchLargeTransactions chain limit (snd (Cache.get key w)) = (Return v, w1) ->
  Binance.getLargeTransactions chain limit w = (Return v, w1) /\
  storage w1 !! key = Some (mkItem v (now w1 + 60 * 1000)) /\
  forall later,
    storage later !! key = storage w1 !! key -> now later <= now w1 + 60 * 1000 ->
    Binance.getLargeTransactions chain limit later = (Return v, later).
Proof.
  intros key Hmiss Hrun.
  assert (Hstored : storage w1 !! key = Some (mkItem v (now w1 + 60 * 1000)) /\
                    truthy v = true).
  { destruct (Binance.symbols !! chain) as [symbol|] eqn:Hsymbol.
    - destruct (fetchLargeTransactions_run chain limit symbol
                  (snd (Cache.get key w)) Hsymbol)
        as (trades & ticker & w1' & w2 & _ & _ & Hbody).
      rewrite Hrun in Hbody.
      destruct (get_property ticker "price") as [p|e]; [|discriminate].
      destruct (Binance.processTrades chain trades (parseFloat p)) as [txs|e];
        [|discriminate].
      injection Hbody as -> ->. split; [|reflexivity].
      cbn. apply lookup_insert_eq.
    - rewrite (fetchLargeTransactions_unsupported _ _ _ Hsymbol) in Hrun. discriminate. }
  destruct Hstored as [Hstored Htruthy].
  split; [|split].
  - rewrite (getLargeTransactions_miss _ _ _ Hmiss). fold key. rewrite Hrun. reflexivity.
  - exact Hstored.
  - intros later Hsame Hfresh. rewrite Hstored in Hsame.
    exact (getLargeTransactions_hit chain limit later _ Hsame Hfresh Htruthy).
Qed.

Lemma getLargeTransactions_unfold (chain : string) (limit : Z) (w : world) :
  Binance.getLargeTransactions chain limit w =
  match Cache.get (Binance.transactions_key chain limit) w with
  | (Return cached, w0) =>
      if truthy cached then (Return cached, w0)
      else try_catch (Binance.fetchLargeTransactions chain limit)
             (fun _ => mret (AArr [])) w0
  | (Throw e, w0) => (Throw e, w0)
  end.
Proof.
  unfold Binance.getLargeTransactions. cbv zeta.
  unfold mbind, M_mbind, M_bind at 1.
  destruct (Cache.get _ w) as [[cached|e] w0]; [|reflexivity].
  destruct (truthy cached); reflexivity.
Qed.

Lemma getLargeTransactions_total (chain : string) (limit : Z) (w : world) :
  exists v w', Binance.getLargeTransactions chain limit w = (Return v, w').
Proof.
  unfold Binance.getLargeTransactions. cbv zeta.
  unfold mbind, M_mbind, M_bind at 1.
  destruct (Cache_get_returns (Binance.transactions_key chain limit) w) as [cached ->].
  destruct (truthy cached); [do 2 eexists; reflexivity|].
  unfold try_catch.
  destruct (Binance.fetchLargeTransactions chain limit _) as [[v|e] w'];
    do 2 eexists; reflexivity.
Qed.

Lemma Cache_get_other (key other : string) (w : world) :
  other <> key -> storage (snd (Cache.get key w)) !! other = storage w !! other.
Proof.
  intros Hother. unfold Cache.get.
  destruct (storage w !! key) as [it|]; [|reflexivity].
  destruct (expiry it <? now w); [|reflexivity].
  cbn. apply lookup_delete_ne. congruence.
Qed.

(** What [getLargeTransactions] leaves alone. *)
Lemma getLargeTransactions_frame (chain : string) (limit : Z) (w : world) :
  let w' := snd (Binance.getLargeTransactions chain limit w) in
  heap w' = heap w /\ controller w' = controller w /\ document w' = document w /\
  net w' = net w /\
  (sent w <= sent w' <= sent w + 6)%nat /\
  (forall other, other <> Binance.transactions_key chain limit ->
                 storage w' !! other = storage w !! other).
Proof.
  rewrite getLargeTransactions_unfold.
  pose proof (Cache_get_frame (Binance.transactions_key chain limit) w) as Hget.
  pose proof (fun other => Cache_get_other (Binance.transactions_key chain limit) other w)
    as Hkeys.
  destruct (Cache_get_returns (Binance.transactions_key chain limit) w) as [cached Hcached].
  rewrite Hcached.
  set (w0 := snd (Cache.get (Binance.transactions_key chain limit) w)) in *.
  cbv zeta in Hget. destruct Hget as (_ & Hnet & Hsent & _ & Hheap & Hctl & Hdoc).
  destruct (truthy cached).
  { cbn [snd]. repeat split; try assumption; try lia. }
  unfold try_catch.
  destruct (Binance.symbols !! chain) as [symbol|] eqn:Hsymbol.
  - destruct (fetchLargeTransactions_run chain limit symbol w0 Hsymbol)
      as (trades & ticker & w1 & w2 & Htrades & Hticker & ->).
    rewrite callAPI_returns in Htrades. cbv zeta in Htrades.
    injection Htrades as _ Hw1.
    rewrite callAPI_returns in Hticker. cbv zeta in Hticker.
    injection Hticker as _ Hw2.
    pose proof (fetchWithRetry_effect
                  (Binance.baseURL ++ Binance.trades_endpoint symbol) [] 3 w0) as H1.
    pose proof (fetchWithRetry_effect
                  (Binance.baseURL ++ Binance.ticker_endpoint symbol) [] 3 w1) as H2.
    cbv zeta in H1, H2. rewrite Hw1 in H1. rewrite Hw2 in H2.
    change (Z.to_nat (Z.max 1 3)) with 3%nat in H1, H2.
    destruct H1 as (Hs1 & Hn1 & Hh1 & Hc1 & Hd1 & _ & Hsent1).
    destruct H2 as (Hs2 & Hn2 & Hh2 & Hc2 & Hd2 & _ & Hsent2).
    assert (Hw2frame :
      heap w2 = heap w /\ controller w2 = controller w /\ document w2 = document w /\
      net w2 = net w /\ (sent w <= sent w2 <= sent w + 6)%nat /\
      (forall other, other <> Binance.transactions_key chain limit ->
                     storage w2 !! other = storage w !! other)).
    { repeat split; try congruence; try lia.
      intros other Hother. rewrite Hs2, Hs1. apply Hkeys, Hother. }
    destruct Hw2frame as (Hh & Hc & Hd & Hn & Hs & Hk).
    destruct (get_property ticker "price") as [p|e];
      [|cbn; repeat split; try assumption; try lia].
    destruct (Binance.processTrades chain trades (parseFloat p)) as [txs|e];
      [|cbn; repeat split; try assumption; try lia].
    cbn. repeat split; try assumption; try lia.
    intros other Hother. rewrite lookup_insert_ne by congruence. apply Hk, Hother.
  - rewrite (fetchLargeTransactions_unsupported _ _ _ Hsymbol).
    cbn [snd mret M_mret M_ret]. repeat split; try assumption; try lia.
Qed.

(** X18.  [getLargeTransactions] keeps to itself: the controller, its
    arrays and the page are not touched, no cache entry other than the
    one of its own key changes, and it sends at most six requests; on a
    hit it sends none. *)
Theorem getLargeTransactions_keeps_to_itself (chain : string) (limit : Z) (w : world) :
  let key := Binance.transactions_key chain limit in
  let w' := snd (Binance.getLargeTransactions chain limit w) in
  heap w' = heap w /\ controller w' = controller w /\ document w' = document w /\
  (sent w <= sent w' <= sent w + 6)%nat /\
  (forall other, String.eqb other key = false ->
                 storage w' !! other = storage w !! other) /\
  (cache_hit key w = true -> sent w' = sent w /\ trace w' = trace w).
Proof.
  intros key w'. subst w' key.
  destruct (getLargeTransactions_frame chain limit w) as (Hh & Hc & Hd & _ & Hs & Hk).
  cbv zeta in Hh, Hc, Hd, Hs, Hk.
  split; [exact Hh|]. split; [exact Hc|]. split; [exact Hd|]. split; [exact Hs|].
  split.
  - intros other Hother. apply Hk. apply String.eqb_neq, Hother.
  - unfold cache_hit. rewrite getLargeTransactions_unfold.
    destruct (Cache_get_returns (Binance.transactions_key chain limit) w) as [cached ->].
    cbn [fst]. intros ->. cbn [snd]. split; apply Cache_get_frame.
Qed.

End Fetched.


Lemma getLargeTransactions_fetched_list_witness :
  exists txs w',
    @Binance.getLargeTransactions reference_builtins "btc" 20 (initial_world exchange_up 0)
      = (Return (AArr txs), w') /\
    Forall (fun tx => Transaction.chain tx = "btc" /\
                      number_ltb (Transaction.amountUsd tx) Binance.minUSD = false) txs /\
    (0 <= 20 -> Z.of_nat (length txs) <= 20).
Proof.
  apply (@getLargeTransactions_fetched_list reference_builtins "btc" 20
           (initial_world exchange_up 0)).
  reflexivity.
Defined.

Lemma getLargeTransactions_keeps_for_a_minute_witness :
  let w := initial_world exchange_up 0 in
  let key := @Binance.transactions_key reference_builtins "btc" 20 in
  let run := @Binance.fetchLargeTransactions reference_builtins "btc" 20
               (snd (Cache.get key w)) in
  let v := AArr (Binance.sortedTxs sample_survivors 20) in
  @Binance.getLargeTransactions reference_builtins "btc" 20 w = (Return v, snd run) /\
  storage (snd run) !! key = Some (mkItem v (now (snd run) + 60 * 1000)) /\
  forall later,
    storage later !! key = storage (snd run) !! key ->
    now later <= now (snd run) + 60 * 1000 ->
    @Binance.getLargeTransactions reference_builtins "btc" 20 later = (Return v, later).
Proof.
  intros w key run v.
  apply (@getLargeTransactions_keeps_for_a_minute reference_builtins "btc" 20 w v (snd run)).
  - reflexivity.
  - vm_compute. reflexivity.
Defined.

(** ** Prices and the 24-hour statistics *)

Section Prices.
Context {B : Builtins}.




End Prices.


(** ** What the controller shows *)

Section View.
Context {B : Builtins}.

Lemma renderTransactions_run (w : world) (stored : list Transaction) :
  heap w !! transactions (controller w) = Some stored ->
  let st := controller w in
  let view := Array_sort (comparator (currentSort st)) (selected (currentChain st) stored) in
  exists w',
    App.renderTransactions w = (Return tt, w') /\
    controller w' = controller w /\
    heap w' !! transactions (controller w) = Some stored /\
    storage w' = storage w /\ sent w' = sent w /\ trace w' = trace w /\
    now w' = now w /\ net w' = net w /\
    document w' =
      if (length view =? 0)%nat
      then mkPage true true true false (errorMessage (document w)) (cards (document w)) false
      else mkPage false true true true (errorMessage (document w)) view false.
Proof.
  intros Hstored st view. subst st view.
  unfold App.renderTransactions.
  unfold App.read, App.alloc, App.sort, App.showEmpty, App.showTransactions.
  unfold mbind, M_mbind, M_bind, mret, M_mret, M_ret, gets, modify.
  cbn [controller heap with_heap with_dom].
  rewrite Hstored. cbn [default]; unfold id.
  pose proof (fresh_not_allocated _ _ _ Hstored) as Hcopy.
  set (copy := fresh (dom (heap w))) in *.
  unfold selected, comparator.
  destruct (String.eqb (currentChain (controller w)) "all"); cbn [negb].
  - destruct (String.eqb (currentSort (controller w)) "amount");
      cbn [controller heap with_heap with_dom]; rewrite !lookup_insert_eq; cbn [default]; unfold id;
      match goal with
      | |- context [(length ?v =? 0)%nat] => destruct (length v =? 0)%nat eqn:Hlen
      end;
      (eexists; split; [reflexivity|]; cbn;
       rewrite !lookup_insert_ne by assumption; rewrite ?Hlen; auto 10).
  - cbn [controller heap with_heap with_dom].
    rewrite lookup_insert_eq. cbn [default]; unfold id.
    assert (Hfiltered : fresh (dom (<[copy:=stored]> (heap w))) <> transactions (controller w)).
    { apply (fresh_not_allocated _ _ stored). rewrite lookup_insert_ne; assumption. }
    set (filtered := fresh (dom (<[copy:=stored]> (heap w)))) in *.
    destruct (String.eqb (currentSort (controller w)) "amount");
      cbn [controller heap with_heap with_dom]; rewrite !lookup_insert_eq; cbn [default]; unfold id;
      match goal with
      | |- context [(length ?v =? 0)%nat] => destruct (length v =? 0)%nat eqn:Hlen
      end;
      (eexists; split; [reflexivity|]; cbn;
       rewrite !lookup_insert_ne by assumption; rewrite ?Hlen; auto 10).
Qed.

Lemma comparator_key (currentSort : string) :
  exists key, forall x y, comparator currentSort x y = number_sub (key y) (key x).
Proof.
  unfold comparator. destruct (String.eqb currentSort "amount").
  - exists Transaction.amountUsd. reflexivity.
  - exists Transaction.timestamp. reflexivity.
Qed.

Lemma comparator_perm (currentSort : string) (l : list Transaction) :
  Array_sort (comparator currentSort) l ≡ₚ l.
Proof.
  destruct (comparator_key currentSort) as [key Hkey].
  exact (Array_sort_perm key _ Hkey l).
Qed.


Lemma length_zero_nil {A} (l : list A) : (length l =? 0)%nat = true <-> l = [].
Proof. destruct l; cbn; split; intros; congruence. Qed.

Lemma sorted_nil_inv (currentSort : string) (l : list Transaction) :
  (length (Array_sort (comparator currentSort) l) =? 0)%nat = true -> l = [].
Proof.
  intros Hlen. apply length_zero_nil in Hlen.
  pose proof (comparator_perm currentSort l) as Hperm. rewrite Hlen in Hperm.
  symmetry in Hperm. apply Permutation_nil_r in Hperm. exact Hperm.
Qed.


(** X22.  [setChain] selects, it does not load: the stored list, the
    cache and the request log are as they were, the cards shown are the
    stored transactions of the chain selected, and selecting 'all'
    afterwards shows every stored transaction again. *)
Theorem setChain_filters_and_restores (chain : string) (w : world)
    (stored : list Transaction) :
  heap w !! transactions (controller w) = Some stored ->
  chain <> "all" ->
  stored <> [] ->
  let matching := List.filter (fun tx => String.eqb (Transaction.chain tx) chain) stored in
  let w1 := snd (App.setChain chain w) in
  let w2 := snd (App.setChain "all" w1) in
  currentChain (controller w1) = chain /\
  heap w1 !! transactions (controller w1) = Some stored /\
  storage w1 = storage w /\ sent w1 = sent w /\ trace w1 = trace w /\
  (matching = [] -> emptyState_hidden (document w1) = false) /\
  (matching <> [] ->
   transactionsContainer_hidden (document w1) = false /\
   cards (document w1) ≡ₚ matching) /\
  heap w2 !! transactions (controller w2) = Some stored /\
  transactionsContainer_hidden (document w2) = false /\
  cards (document w2) ≡ₚ stored.
Proof.
  intros Hstored Hchain Hsome matching w1 w2.
  set (v := with_controller (App.set_currentChain chain) w).
  assert (Hv : heap v !! transactions (controller v) = Some stored) by exact Hstored.
  destruct (renderTransactions_run v stored Hv)
    as (v' & Hrun & Hctl & Hheap & Hsto & Hsent & Htrace & _ & _ & Hdoc).
  assert (Hw1 : w1 = v').
  { subst w1. unfold App.setChain. unfold mbind, M_mbind, M_bind, modify. fold v.
    rewrite Hrun. reflexivity. }
  cbv zeta in Hdoc.
  assert (Hchosen : selected (currentChain (controller v)) stored = matching).
  { unfold selected. cbn. destruct (String.eqb_spec chain "all"); [contradiction|reflexivity]. }
  rewrite Hchosen in Hdoc.
  pose proof (comparator_perm (currentSort (controller v)) matching) as Hperm.
  set (u := with_controller (App.set_currentChain "all") v').
  assert (Hu : heap u !! transactions (controller u) = Some stored).
  { subst u. cbn. rewrite Hctl. exact Hheap. }
  destruct (renderTransactions_run u stored Hu)
    as (u' & Hrun' & Hctl' & Hheap' & _ & _ & _ & _ & _ & Hdoc').
  assert (Hw2 : w2 = u').
  { subst w2. rewrite Hw1. unfold App.setChain. unfold mbind, M_mbind, M_bind, modify.
    fold u. rewrite Hrun'. reflexivity. }
  cbv zeta in Hdoc'.
  change (selected (currentChain (controller u)) stored) with stored in Hdoc'.
  pose proof (comparator_perm (currentSort (controller u)) stored) as Hperm'.
  rewrite Hw2, Hw1.
  split; [rewrite Hctl; reflexivity|].
  split; [rewrite Hctl; exact Hheap|].
  split; [exact Hsto|]. split; [exact Hsent|]. split; [exact Htrace|].
  split; [|split; [|split; [|split]]].
  - intros Hnone. rewrite Hdoc, Hnone. reflexivity.
  - intros Hmatch. rewrite Hdoc.
    destruct (length (Array_sort (comparator (currentSort (controller v))) matching) =? 0)%nat
      eqn:Hlen.
    + apply sorted_nil_inv in Hlen. contradiction.
    + split; [reflexivity|exact Hperm].
  - rewrite Hctl'. exact Hheap'.
  - rewrite Hdoc'.
    destruct (length (Array_sort (comparator (currentSort (controller u))) stored) =? 0)%nat
      eqn:Hlen; [|reflexivity].
    apply sorted_nil_inv in Hlen. contradiction.
  - rewrite Hdoc'.
    destruct (length (Array_sort (comparator (currentSort (controller u))) stored) =? 0)%nat
      eqn:Hlen; [|exact Hperm'].
    apply sorted_nil_inv in Hlen. contradiction.
Qed.

(** X23.  [setSort] and [toggleExpand] show the same transactions as
    before, in whatever order: when the stored list has transactions for
    the chain selected, the cards after either are a rearrangement of
    those, and neither touches the stored list, the cache or the request
    log.  [toggleExpand] closes the card that is expanded when it is given
    its id, and makes the card of the id it is given the expanded one
    otherwise; the page it shows is the one [renderTransactions] shows. *)
Theorem setSort_and_toggleExpand_keep_the_cards (sort txId : string) (w : world)
    (stored : list Transaction) :
  heap w !! transactions (controller w) = Some stored ->
  selected (currentChain (controller w)) stored <> [] ->
  let chosen := selected (currentChain (controller w)) stored in
  let w1 := snd (App.setSort sort w) in
  let w2 := snd (App.toggleExpand txId w) in
  (currentSort (controller w1) = sort /\ cards (document w1) ≡ₚ chosen /\
   heap w1 !! transactions (controller w1) = Some stored /\
   storage w1 = storage w /\ sent w1 = sent w /\ trace w1 = trace w) /\
  (expandedTxId (controller w2) =
     (if decide (expandedTxId (controller w) = Some txId) then None else Some txId) /\
   document w2 = document (snd (App.renderTransactions w)) /\
   cards (document w2) ≡ₚ chosen /\
   heap w2 !! transactions (controller w2) = Some stored /\
   storage w2 = storage w /\ sent w2 = sent w /\ trace w2 = trace w).
Proof.
  intros Hstored Hsome chosen w1 w2.
  assert (Hshown : forall v,
            heap v !! transactions (controller v) = Some stored ->
            currentChain (controller v) = currentChain (controller w) ->
            document v = document w ->
            exists v', App.renderTransactions v = (Return tt, v') /\
              controller v' = controller v /\
              heap v' !! transactions (controller v) = Some stored /\
              storage v' = storage v /\ sent v' = sent v /\ trace v' = trace v /\
              document v' =
                mkPage false true true true (errorMessage (document w))
                  (Array_sort (comparator (currentSort (controller v))) chosen) false).
  { intros v Hv Hchain Hd.
    destruct (renderTransactions_run v stored Hv)
      as (v' & Hrun & Hctl & Hheap & Hsto & Hsent & Htrace & _ & _ & Hdoc).
    cbv zeta in Hdoc. rewrite Hchain in Hdoc. fold chosen in Hdoc.
    exists v'. repeat (split; [assumption|]). rewrite Hdoc, Hd.
    destruct (length (Array_sort (comparator (currentSort (controller v))) chosen) =? 0)%nat
      eqn:Hlen; [|reflexivity].
    apply sorted_nil_inv in Hlen. contradiction. }
  split.
  - destruct (Hshown (with_controller (App.set_currentSort sort) w))
      as (v' & Hrun & Hctl & Hheap & Hsto & Hsent & Htrace & Hdoc);
      [exact Hstored|reflexivity|reflexivity|].
    assert (Hw1 : w1 = v').
    { subst w1. unfold App.setSort. unfold mbind, M_mbind, M_bind, modify.
      rewrite Hrun. reflexivity. }
    rewrite Hw1, Hctl, Hdoc.
    split; [reflexivity|]. split; [apply comparator_perm|].
    split; [exact Hheap|]. split; [exact Hsto|]. split; [exact Hsent|exact Htrace].
  - set (next := if decide (expandedTxId (controller w) = Some txId)
                 then None else Some txId).
    destruct (Hshown (with_controller (App.set_expandedTxId next) w))
      as (v' & Hrun & Hctl & Hheap & Hsto & Hsent & Htrace & Hdoc);
      [exact Hstored|reflexivity|reflexivity|].
    destruct (Hshown w Hstored eq_refl eq_refl) as (r & Hrender & _ & _ & _ & _ & _ & Hdocr).
    assert (Hw2 : w2 = v').
    { subst w2 next. unfold App.toggleExpand.
      unfold mbind, M_mbind, M_bind, gets, modify.
      destruct (decide (expandedTxId (controller w) = Some txId)); rewrite Hrun; reflexivity. }
    rewrite Hw2, Hctl, Hrender. cbn [snd]. rewrite Hdoc, Hdocr.
    split; [reflexivity|]. split; [reflexivity|]. split; [apply comparator_perm|].
    split; [exact Hheap|]. split; [exact Hsto|]. split; [exact Hsent|exact Htrace].
Qed.

End View.

(** ** Loading *)

Section Loading.
Context {B : Builtins}.

Lemma try_catch_bind_return {A C} (m : M A) (k : A -> M C) (h : error -> M C)
    (w : world) (a : A) (w1 : world) :
  m w = (Return a, w1) -> try_catch (mbind k m) h w = try_catch (k a) h w1.
Proof.
  intros Hm. unfold try_catch, mbind, M_mbind, M_bind. rewrite Hm. reflexivity.
Qed.

Lemma try_catch_bind_throw {A C} (m : M A) (k : A -> M C) (h : error -> M C)
    (w : world) (e : error) (w1 : world) :
  m w = (Throw e, w1) -> try_catch (mbind k m) h w = h e w1.
Proof.
  intros Hm. unfold try_catch, mbind, M_mbind, M_bind. rewrite Hm. reflexivity.
Qed.

Lemma settle_returns (m : M any) (w : world) :
  exists r, App.settle m w = (Return r, snd (m w)).
Proof.
  unfold App.settle. destruct (m w) as [[v|e] w']; eexists; reflexivity.
Qed.

Lemma same_traffic_trans (w1 w2 w3 : world) :
  same_traffic w1 w2 -> same_traffic w2 w3 -> same_traffic w1 w3.
Proof. unfold same_traffic. intros (? & ? & ? & ?) (? & ? & ? & ?). repeat split; congruence. Qed.

(** The [catch] block of [loadData] completes and shows the error panel or
    the list. *)
Lemma recover_run (e : error) (w : world) :
  exists w',
    App.recover e w = (Return tt, w') /\ controller w' = controller w /\
    same_traffic w w' /\
    visible_panels (document w') = 1%nat /\
    loadingState_hidden (document w') = true /\ loading_pulse (document w') = false.
Proof.
  unfold App.recover, App.read, App.showError, App.showTransactions, same_traffic.
  unfold mbind, M_mbind, M_bind, gets, modify.
  match goal with
  | |- context [(length ?v =? 0)%nat] => destruct (length v =? 0)%nat
  end; eexists; split; try reflexivity; cbn; auto 10.
Qed.

Lemma push_fulfilled_cases (r : settled) (w : world) (xs : list Transaction) :
  heap w !! transactions (controller w) = Some xs ->
  (exists w',
     App.push_fulfilled r w = (Return tt, w') /\
     controller w' = controller w /\ document w' = document w /\ same_traffic w w' /\
     heap w' !! transactions (controller w) = Some (xs ++ settled_transactions r)%list) \/
  (exists e, App.push_fulfilled r w = (Throw e, w)).
Proof.
  intros Hxs. destruct (spreadable r) eqn:Hr.
  - left. destruct (push_fulfilled_run r w xs Hr Hxs) as (w' & Hrun & Hc & Hd & _ & Hh).
    exists w'. repeat (split; [assumption|]). split; [|exact Hh].
    replace w' with (snd (App.push_fulfilled r w)) by (rewrite Hrun; reflexivity).
    destruct r as [[| | | |txs]|e]; try discriminate; repeat split; reflexivity.
  - right. destruct r as [[| | | |txs]|e]; try discriminate; eexists; reflexivity.
Qed.

(** Whatever the three requests settled with, the rest of [loadData]
    completes with one panel shown, which is not the loading one, and sends
    nothing. *)
Lemma merge_settles (btcTxs ethTxs solTxs : settled) (w : world) :
  exists w',
    try_catch (App.merge btcTxs ethTxs solTxs) App.recover w = (Return tt, w') /\
    isLoading (controller w') = isLoading (controller w) /\
    same_traffic w w' /\
    visible_panels (document w') = 1%nat /\
    loadingState_hidden (document w') = true /\ loading_pulse (document w') = false.
Proof.
  assert (Hcaught : forall e v, isLoading (controller v) = isLoading (controller w) ->
            same_traffic w v ->
            exists w', App.recover e v = (Return tt, w') /\
              isLoading (controller w') = isLoading (controller w) /\
              same_traffic w w' /\
              visible_panels (document w') = 1%nat /\
              loadingState_hidden (document w') = true /\
              loading_pulse (document w') = false).
  { intros e v Hv Hsame. destruct (recover_run e v) as (w' & Hrun & Hc & Hsame' & Hpanels).
    exists w'. split; [exact Hrun|]. split; [congruence|].
    split; [exact (same_traffic_trans _ _ _ Hsame Hsame')|exact Hpanels]. }
  unfold App.merge.
  erewrite try_catch_bind_return by reflexivity.
  erewrite try_catch_bind_return by reflexivity.
  set (w1 := with_controller _ (with_heap _ w)).
  assert (H1 : heap w1 !! transactions (controller w1) = Some []).
  { subst w1. cbn. apply lookup_insert_eq. }
  assert (L1 : isLoading (controller w1) = isLoading (controller w)) by reflexivity.
  assert (S1 : same_traffic w w1) by (repeat split; reflexivity).
  destruct (push_fulfilled_cases btcTxs w1 [] H1)
    as [(w2 & Hrun2 & Hc2 & _ & T2 & H2)|[e Hthrow]];
    [|rewrite (try_catch_bind_throw _ _ _ _ _ _ Hthrow); apply Hcaught; assumption].
  rewrite (try_catch_bind_return _ _ _ _ _ _ Hrun2).
  rewrite <- Hc2 in H2.
  assert (L2 : isLoading (controller w2) = isLoading (controller w)) by congruence.
  assert (S2 : same_traffic w w2) by exact (same_traffic_trans _ _ _ S1 T2).
  destruct (push_fulfilled_cases ethTxs w2 _ H2)
    as [(w3 & Hrun3 & Hc3 & _ & T3 & H3)|[e Hthrow]];
    [|rewrite (try_catch_bind_throw _ _ _ _ _ _ Hthrow); apply Hcaught; assumption].
  rewrite (try_catch_bind_return _ _ _ _ _ _ Hrun3).
  rewrite <- Hc3 in H3.
  assert (L3 : isLoading (controller w3) = isLoading (controller w)) by congruence.
  assert (S3 : same_traffic w w3) by exact (same_traffic_trans _ _ _ S2 T3).
  destruct (push_fulfilled_cases solTxs w3 _ H3)
    as [(w4 & Hrun4 & Hc4 & _ & T4 & H4)|[e Hthrow]];
    [|rewrite (try_catch_bind_throw _ _ _ _ _ _ Hthrow); apply Hcaught; assumption].
  rewrite (try_catch_bind_return _ _ _ _ _ _ Hrun4).
  rewrite <- Hc4 in H4.
  assert (L4 : isLoading (controller w4) = isLoading (controller w)) by congruence.
  assert (S4 : same_traffic w w4) by exact (same_traffic_trans _ _ _ S3 T4).
  erewrite try_catch_bind_return by reflexivity.
  erewrite try_catch_bind_return by reflexivity.
  erewrite try_catch_bind_return by reflexivity.
  set (w5 := with_controller _ w4).
  assert (H5 : exists xs, heap w5 !! transactions (controller w5) = Some xs).
  { subst w5. cbn. cbn in H4. eauto. }
  destruct H5 as [xs H5].
  destruct (renderTransactions_run w5 xs H5)
    as (w' & Hrun & Hc & _ & Hsto & Hsent & Htrace & Hnow & _ & Hdoc).
  exists w'. unfold try_catch. rewrite Hrun.
  split; [reflexivity|]. split; [rewrite Hc; exact L4|].
  split.
  { apply (same_traffic_trans _ _ _ S4). repeat split; assumption. }
  rewrite Hdoc. cbv zeta.
  match goal with
  | |- context [(length ?v =? 0)%nat] => destruct (length v =? 0)%nat
  end; auto.
Qed.

(** [loadData] when no load is under way, step by step. *)
Lemma loadData_run (force : bool) (w : world) :
  isLoading (controller w) = false ->
  let w1 := snd (App.showLoading (with_controller (App.set_isLoading true) w)) in
  let w2 := if force then snd (Cache.clear w1) else w1 in
  let w3 := snd (BitcoinService.getLargeTransactions 20 w2) in
  let w4 := snd (EthereumService.getLargeTransactions 20 w3) in
  let w5 := snd (SolanaService.getLargeTransactions 20 w4) in
  exists btcTxs ethTxs solTxs w',
    App.settle (BitcoinService.getLargeTransactions 20) w2 = (Return btcTxs, w3) /\
    App.settle (EthereumService.getLargeTransactions 20) w3 = (Return ethTxs, w4) /\
    App.settle (SolanaService.getLargeTransactions 20) w4 = (Return solTxs, w5) /\
    try_catch (App.merge btcTxs ethTxs solTxs) App.recover w5 = (Return tt, w') /\
    App.loadData force w = (Return tt, with_controller (App.set_isLoading false) w').
Proof.
  intros Hloading w1 w2 w3 w4 w5. unfold App.loadData.
  unfold mbind at 1. unfold M_mbind, M_bind at 1. unfold gets at 1.
  rewrite Hloading.
  unfold mbind at 1. unfold M_mbind, M_bind at 1. unfold modify at 1.
  unfold mbind at 1. unfold M_mbind, M_bind at 1.
  assert (Hshow : App.showLoading (with_controller (App.set_isLoading true) w)
                  = (Return tt, w1)) by reflexivity.
  rewrite Hshow. unfold try_finally.
  assert (Hstart : (if force then Cache.clear else mret tt) w1 = (Return tt, w2)).
  { subst w2. destruct force; reflexivity. }
  rewrite (try_catch_bind_return _ _ _ _ _ _ Hstart).
  destruct (settle_returns (BitcoinService.getLargeTransactions 20) w2) as [btcTxs Hbtc].
  fold w3 in Hbtc. rewrite (try_catch_bind_return _ _ _ _ _ _ Hbtc).
  destruct (settle_returns (EthereumService.getLargeTransactions 20) w3) as [ethTxs Heth].
  fold w4 in Heth. rewrite (try_catch_bind_return _ _ _ _ _ _ Heth).
  destruct (settle_returns (SolanaService.getLargeTransactions 20) w4) as [solTxs Hsol].
  fold w5 in Hsol. rewrite (try_catch_bind_return _ _ _ _ _ _ Hsol).
  destruct (merge_settles btcTxs ethTxs solTxs w5) as (w' & Hmerge & _).
  exists btcTxs, ethTxs, solTxs, w'. rewrite Hmerge. auto.
Qed.

(** X24.  [loadData] always completes.  While a load is under way it does
    nothing at all.  Otherwise, whatever the cache holds and the network
    answers, it ends with [isLoading] false, the loading panel hidden, the
    pulse off and one of the other three panels shown. *)
Theorem loadData_settles (force : bool) (w : world) :
  let run := App.loadData force w in
  fst run = Return tt /\
  (isLoading (controller w) = true -> snd run = w) /\
  (isLoading (controller w) = false ->
   isLoading (controller (snd run)) = false /\
   visible_panels (document (snd run)) = 1%nat /\
   loadingState_hidden (document (snd run)) = true /\
   loading_pulse (document (snd run)) = false).
Proof.
  intros run. subst run.
  destruct (isLoading (controller w)) eqn:Hloading.
  - assert (Hbusy : App.loadData force w = (Return tt, w)).
    { unfold App.loadData. unfold mbind, M_mbind, M_bind at 1. unfold gets at 1.
      rewrite Hloading. reflexivity. }
    rewrite Hbusy. split; [reflexivity|]. split; [reflexivity|discriminate].
  - destruct (loadData_run force w Hloading)
      as (btcTxs & ethTxs & solTxs & w' & _ & _ & _ & Hmerge & ->).
    match type of Hmerge with
    | try_catch _ _ ?v = _ =>
        destruct (merge_settles btcTxs ethTxs solTxs v) as (w'' & Hmerge' & _ & _ & Hpanels)
    end.
    rewrite Hmerge in Hmerge'. injection Hmerge' as <-.
    split; [reflexivity|]. split; [discriminate|]. intros _.
    split; [reflexivity|exact Hpanels].
Qed.

(** The [try] block of [loadData] when the three requests were fulfilled
    with an array each. *)
Lemma merge_run (l1 l2 l3 : list Transaction) (w : world) :
  exists w',
    App.merge (fulfilled (AArr l1)) (fulfilled (AArr l2)) (fulfilled (AArr l3)) w
      = (Return tt, w') /\
    heap w' !! transactions (controller w') = Some (l1 ++ l2 ++ l3)%list /\
    lastUpdate (controller w') = Some (now w) /\
    currentChain (controller w') = currentChain (controller w) /\
    currentSort (controller w') = currentSort (controller w) /\
    document w' =
      (let view := Array_sort (comparator (currentSort (controller w)))
                     (selected (currentChain (controller w)) (l1 ++ l2 ++ l3)%list) in
       if (length view =? 0)%nat
       then mkPage true true true false (errorMessage (document w)) (cards (document w)) false
       else mkPage false true true true (errorMessage (document w)) view false).
Proof.
  unfold App.merge.
  unfold mbind, M_mbind, M_bind at 1. unfold App.alloc at 1.
  unfold mbind, M_mbind, M_bind at 1. unfold modify at 1.
  set (w1 := with_controller _ (with_heap _ w)).
  assert (H1 : heap w1 !! transactions (controller w1) = Some []).
  { subst w1. cbn. apply lookup_insert_eq. }
  unfold mbind, M_mbind, M_bind at 1.
  destruct (push_fulfilled_run (fulfilled (AArr l1)) w1 [] eq_refl H1)
    as (w2 & -> & Hc2 & Hd2 & Hn2 & H2).
  rewrite <- Hc2 in H2.
  unfold mbind, M_mbind, M_bind at 1.
  destruct (push_fulfilled_run (fulfilled (AArr l2)) w2 _ eq_refl H2)
    as (w3 & -> & Hc3 & Hd3 & Hn3 & H3).
  rewrite <- Hc3 in H3.
  unfold mbind, M_mbind, M_bind at 1.
  destruct (push_fulfilled_run (fulfilled (AArr l3)) w3 _ eq_refl H3)
    as (w4 & -> & Hc4 & Hd4 & Hn4 & H4).
  rewrite <- Hc4 in H4.
  unfold mbind, M_mbind, M_bind, gets, modify, App.updateLastUpdateTime, mret, M_mret, M_ret.
  set (w5 := with_controller _ w4).
  assert (H5 : heap w5 !! transactions (controller w5) = Some (l1 ++ l2 ++ l3)%list).
  { subst w5. cbn. cbn in H4. rewrite H4, <- app_assoc. reflexivity. }
  assert (Hc5 : controller w5 = App.set_lastUpdate (Some (now w)) (controller w1)).
  { subst w5. cbn. rewrite Hc4, Hc3, Hc2, Hn4, Hn3, Hn2. reflexivity. }
  assert (Hd1 : document w1 = document w) by reflexivity.
  assert (Hd5 : document w5 = document w).
  { subst w5. cbn. congruence. }
  destruct (renderTransactions_run w5 _ H5)
    as (w' & Hrender & Hc & Hheap & _ & _ & _ & _ & _ & Hdoc).
  exists w'. split; [exact Hrender|]. rewrite Hc.
  split; [exact Hheap|].
  rewrite Hdoc, Hd5, Hc5. cbv zeta. auto.
Qed.

(** X25.  A load that is not forced and finds an array cached and not
    expired for each of the three assets sends no request and leaves the
    cache as it was; the controller then stores the three arrays put
    together in the order btc, eth, sol, and the time of the clock as the
    last update.  (The service for btc is the facade over the adapter that
    the services for eth and sol are.) *)
Theorem loadData_served_from_cache (w : world) (btc eth sol : item)
    (l1 l2 l3 : list Transaction) :
  isLoading (controller w) = false ->
  storage w !! Binance.transactions_key "btc" 20 = Some btc ->
  storage w !! Binance.transactions_key "eth" 20 = Some eth ->
  storage w !! Binance.transactions_key "sol" 20 = Some sol ->
  value btc = AArr l1 -> value eth = AArr l2 -> value sol = AArr l3 ->
  now w <= expiry btc -> now w <= expiry eth -> now w <= expiry sol ->
  let w' := snd (App.loadData false w) in
  same_traffic w w' /\
  heap w' !! transactions (controller w') = Some (l1 ++ l2 ++ l3)%list /\
  lastUpdate (controller w') = Some (now w) /\
  isLoading (controller w') = false.
Proof.
  intros Hloading Hbtc Heth Hsol Hl1 Hl2 Hl3 Hf1 Hf2 Hf3 w'.
  destruct (loadData_run false w Hloading)
    as (btcTxs & ethTxs & solTxs & v & Rbtc & Reth & Rsol & Hmerge & Hrun).
  cbv zeta in Rbtc, Reth, Rsol, Hmerge.
  set (w1 := snd (App.showLoading (with_controller (App.set_isLoading true) w))) in *.
  assert (Hit : forall chain it l,
            storage w !! Binance.transactions_key chain 20 = Some it ->
            value it = AArr l -> now w <= expiry it ->
            Binance.getLargeTransactions chain 20 w1 = (Return (AArr l), w1)).
  { intros chain it l Hstored Hvalue Hfresh. rewrite <- Hvalue.
    apply (getLargeTransactions_hit chain 20 w1 it); [exact Hstored|exact Hfresh|].
    rewrite Hvalue. reflexivity. }
  pose proof (Hit "btc" btc l1 Hbtc Hl1 Hf1) as Cbtc.
  pose proof (Hit "eth" eth l2 Heth Hl2 Hf2) as Ceth.
  pose proof (Hit "sol" sol l3 Hsol Hl3 Hf3) as Csol.
  unfold BitcoinService.getLargeTransactions in Rbtc, Reth, Rsol, Hmerge.
  unfold EthereumService.getLargeTransactions in Reth, Rsol, Hmerge.
  unfold SolanaService.getLargeTransactions in Rsol, Hmerge.
  unfold App.settle in Rbtc, Reth, Rsol.
  rewrite Cbtc in Rbtc, Reth, Rsol, Hmerge. cbn [snd] in Reth, Rsol, Hmerge.
  rewrite Ceth in Reth, Rsol, Hmerge. cbn [snd] in Rsol, Hmerge.
  rewrite Csol in Rsol, Hmerge. cbn [snd] in Hmerge.
  injection Rbtc as <-. injection Reth as <-. injection Rsol as <-.
  destruct (merge_run l1 l2 l3 w1) as (v' & Hmerged & Hheap & Hlast & _).
  destruct (merge_settles (fulfilled (AArr l1)) (fulfilled (AArr l2)) (fulfilled (AArr l3)) w1)
    as (v'' & Hsettled & _ & Hsame & _).
  rewrite Hmerge in Hsettled. injection Hsettled as <-.
  unfold try_catch in Hmerge. rewrite Hmerged in Hmerge. injection Hmerge as <-.
  subst w'. rewrite Hrun. cbn [snd].
  split; [exact Hsame|]. split; [exact Hheap|]. split; [exact Hlast|reflexivity].
Qed.

Lemma getLargeTransactions_miss_sends (chain symbol : string) (limit : Z) (w : world) :
  Binance.symbols !! chain = Some symbol ->
  storage w !! Binance.transactions_key chain limit = None ->
  (sent w + 2 <= sent (snd (Binance.getLargeTransactions chain limit w)))%nat.
Proof.
  intros Hsymbol Hnone.
  assert (Hget : Cache.get (Binance.transactions_key chain limit) w = (Return ANull, w)).
  { unfold Cache.get. rewrite Hnone. reflexivity. }
  rewrite getLargeTransactions_miss by (unfold cache_hit; rewrite Hget; reflexivity).
  rewrite Hget. cbn [snd].
  destruct (fetchLargeTransactions_run chain limit symbol w Hsymbol)
    as (trades & ticker & w1 & w2 & Htrades & Hticker & ->).
  rewrite callAPI_returns in Htrades. cbv zeta in Htrades. injection Htrades as _ Hw1.
  rewrite callAPI_returns in Hticker. cbv zeta in Hticker. injection Hticker as _ Hw2.
  pose proof (fetchWithRetry_effect
                (Binance.baseURL ++ Binance.trades_endpoint symbol) [] 3 w) as H1.
  pose proof (fetchWithRetry_effect
                (Binance.baseURL ++ Binance.ticker_endpoint symbol) [] 3 w1) as H2.
  cbv zeta in H1, H2. rewrite Hw1 in H1. rewrite Hw2 in H2.
  destruct H1 as (_ & _ & _ & _ & _ & _ & Hsent1).
  destruct H2 as (_ & _ & _ & _ & _ & _ & Hsent2).
  destruct (get_property ticker "price") as [p|e]; [|cbn; lia].
  destruct (Binance.processTrades chain trades (parseFloat p)) as [txs|e]; cbn; lia.
Qed.

(** X26.  A forced load does not use the cache: whatever was stored, it
    sends at least six requests (each of btc, eth and sol takes two at
    least) and no more than eighteen, and afterwards the cache holds
    nothing under any key but those of the three lists.  (The service for
    btc is the facade over the adapter that the services for eth and sol
    are.) *)
Theorem loadData_force_refetches (w : world) :
  isLoading (controller w) = false ->
  let w' := snd (App.loadData true w) in
  (sent w + 6 <= sent w' <= sent w + 18)%nat /\
  forall key,
    key <> Binance.transactions_key "btc" 20 ->
    key <> Binance.transactions_key "eth" 20 ->
    key <> Binance.transactions_key "sol" 20 ->
    storage w' !! key = None.
Proof.
  intros Hloading w'.
  destruct (loadData_run true w Hloading)
    as (btcTxs & ethTxs & solTxs & v & _ & _ & _ & Hmerge & Hrun).
  cbv zeta in Hmerge.
  set (w2 := snd (Cache.clear
                    (snd (App.showLoading (with_controller (App.set_isLoading true) w)))))
    in *.
  unfold BitcoinService.getLargeTransactions, EthereumService.getLargeTransactions,
    SolanaService.getLargeTransactions in Hmerge.
  set (w3 := snd (Binance.getLargeTransactions "btc" 20 w2)) in *.
  set (w4 := snd (Binance.getLargeTransactions "eth" 20 w3)) in *.
  set (w5 := snd (Binance.getLargeTransactions "sol" 20 w4)) in *.
  assert (Hempty : forall key, storage w2 !! key = None) by (intros key; apply lookup_empty).
  assert (Hsent2 : sent w2 = sent w) by reflexivity.
  pose proof (getLargeTransactions_frame "btc" 20 w2) as F3.
  pose proof (getLargeTransactions_frame "eth" 20 w3) as F4.
  pose proof (getLargeTransactions_frame "sol" 20 w4) as F5.
  cbv zeta in F3, F4, F5. fold w3 in F3. fold w4 in F4. fold w5 in F5.
  destruct F3 as (_ & _ & _ & _ & U3 & K3).
  destruct F4 as (_ & _ & _ & _ & U4 & K4).
  destruct F5 as (_ & _ & _ & _ & U5 & K5).
  assert (Hbe : Binance.transactions_key "eth" 20 <> Binance.transactions_key "btc" 20)
    by (intros Heq; unfold Binance.transactions_key in Heq; cbn in Heq; discriminate Heq).
  assert (Hsb : Binance.transactions_key "sol" 20 <> Binance.transactions_key "btc" 20)
    by (intros Heq; unfold Binance.transactions_key in Heq; cbn in Heq; discriminate Heq).
  assert (Hse : Binance.transactions_key "sol" 20 <> Binance.transactions_key "eth" 20)
    by (intros Heq; unfold Binance.transactions_key in Heq; cbn in Heq; discriminate Heq).
  pose proof (getLargeTransactions_miss_sends "btc" "BTCUSDT" 20 w2 eq_refl (Hempty _)) as L3.
  assert (Meth : storage w3 !! Binance.transactions_key "eth" 20 = None).
  { rewrite (K3 _ Hbe). apply Hempty. }
  pose proof (getLargeTransactions_miss_sends "eth" "ETHUSDT" 20 w3 eq_refl Meth) as L4.
  assert (Msol : storage w4 !! Binance.transactions_key "sol" 20 = None).
  { rewrite (K4 _ Hse), (K3 _ Hsb). apply Hempty. }
  pose proof (getLargeTransactions_miss_sends "sol" "SOLUSDT" 20 w4 eq_refl Msol) as L5.
  fold w3 in L3. fold w4 in L4. fold w5 in L5.
  destruct (merge_settles btcTxs ethTxs solTxs w5) as (v' & Hsettled & _ & Hsame & _).
  rewrite Hmerge in Hsettled. injection Hsettled as <-.
  destruct Hsame as (Hstorage & _ & Hsent & _).
  subst w'. rewrite Hrun. cbn [snd].
  change (sent (with_controller (App.set_isLoading false) v)) with (sent v).
  change (storage (with_controller (App.set_isLoading false) v)) with (storage v).
  rewrite Hsent, Hstorage. split; [lia|].
  intros key Nbtc Neth Nsol.
  rewrite (K5 _ Nsol), (K4 _ Neth), (K3 _ Nbtc). apply Hempty.
Qed.

End Loading.


Lemma setChain_filters_and_restores_witness :
  let w1 := snd (App.setChain "btc" loaded_world) in
  let w2 := snd (App.setChain "all" w1) in
  currentChain (controller w1) = "btc" /\
  heap w1 !! transactions (controller w1) = Some sample_survivors /\
  sent w1 = sent loaded_world /\
  cards (document w2) ≡ₚ sample_survivors.
Proof.
  intros w1 w2.
  pose proof (setChain_filters_and_restores "btc" loaded_world sample_survivors eq_refl)
    as Hset.
  destruct Hset as (Hchain & Hheap & _ & Hsent & _ & _ & _ & _ & _ & Hall).
  { discriminate. }
  { vm_compute. discriminate. }
  split; [exact Hchain|]. split; [exact Hheap|]. split; [exact Hsent|exact Hall].
Defined.

Lemma setSort_and_toggleExpand_keep_the_cards_witness :
  let w1 := snd (App.setSort "time" loaded_world) in
  let w2 := snd (App.toggleExpand "binance_btc_1" loaded_world) in
  (currentSort (controller w1) = "time" /\ cards (document w1) ≡ₚ sample_survivors) /\
  (expandedTxId (controller w2) = Some "binance_btc_1" /\
   cards (document w2) ≡ₚ sample_survivors).
Proof.
  intros w1 w2.
  pose proof (setSort_and_toggleExpand_keep_the_cards "time" "binance_btc_1"
                loaded_world sample_survivors eq_refl) as Hkeep.
  destruct Hkeep as ((Hsort & Hcards & _) & (Hexpanded & _ & Hcards' & _)).
  { vm_compute. discriminate. }
  split; [split; [exact Hsort|exact Hcards]|split; [exact Hexpanded|exact Hcards']].
Defined.

Lemma loadData_served_from_cache_witness :
  let w' := snd (@App.loadData reference_builtins false all_cached) in
  same_traffic all_cached w' /\
  heap w' !! transactions (controller w') = Some (sample_survivors ++ [] ++ [])%list /\
  lastUpdate (controller w') = Some (now all_cached) /\
  isLoading (controller w') = false.
Proof.
  apply (@loadData_served_from_cache reference_builtins all_cached
           (mkItem (AArr sample_survivors) 60000) (mkItem (AArr []) 60000)
           (mkItem (AArr []) 60000) sample_survivors [] []);
    try reflexivity; simpl; lia.
Defined.

Lemma loadData_force_refetches_witness :
  let w' := snd (@App.loadData reference_builtins true all_cached) in
  (sent all_cached + 6 <= sent w' <= sent all_cached + 18)%nat /\
  forall key,
    key <> @Binance.transactions_key reference_builtins "btc" 20 ->
    key <> @Binance.transactions_key reference_builtins "eth" 20 ->
    key <> @Binance.transactions_key reference_builtins "sol" 20 ->
    storage w' !! key = None.
Proof.
  apply (@loadData_force_refetches reference_builtins all_cached).
  reflexivity.
Defined.

(** ** Amounts in dollars *)

Section Money.
Variable Number_toLocaleString : number -> Z -> string.




End Money.
